(** * trial_bot: the command dialog (inputCardDialog.ts) and the JSON file
    store (JsonDb), embedded as executable Rocq functions.

    - [Js]      the fragment of JavaScript the two components rely on:
                strings as UTF-16 code units, JSON-shaped values,
                truthiness, [ToString], property reads, completions;
    - [Dialog]  [InputCardDialog]: [processUserInputStep] and its handlers;
    - [Json]    a JSON codec, for the in-memory runtime;
    - [Db]      [JsonDb.store], [JsonDb.load], [JsonDb.exists] over an
                interface of the Node [fs] calls and the [JSON] functions
                they use, and an in-memory implementation of that
                interface;
    - [Spec]    the vocabulary of the properties;
    - [Bot]     the registry of conversations of [InputCardBot];
    - [Agent]   [AgentService.sendMessage] over an interface of axios;
    - [Server]  the two [/api/notify] routes of the server;
    - [SpecMore]  further vocabulary;
    - [DialogProps], [DbProps]  the properties;
    - [DialogMore], [DbMore], [BotProps], [AgentProps], [ServerProps]
                further properties. *)

From Stdlib Require Import List NArith ZArith String Ascii Bool Lia.
From Stdlib Require Import DecimalString DecimalPos.
Import ListNotations.

Local Set Warnings "-register-all".

(* ===================================================================== *)
(** * JavaScript values *)
(* ===================================================================== *)

Module Js.

(** A JavaScript string is a sequence of UTF-16 code units. *)
Definition JsString := list N.

(** An ASCII literal as a JavaScript string. *)
Definition u (s : string) : JsString :=
  map N_of_ascii (list_ascii_of_string s).

Definition isEmpty (s : JsString) : bool :=
  match s with [] => true | _ => false end.

Fixpoint str_eqb (a b : JsString) : bool :=
  match a, b with
  | [], [] => true
  | x :: a', y :: b' => N.eqb x y && str_eqb a' b'
  | _, _ => false
  end.

(** [s.startsWith(p)] and [s.includes(p)]. *)
Fixpoint startsWith (p s : JsString) : bool :=
  match p, s with
  | [], _ => true
  | x :: p', y :: s' => N.eqb x y && startsWith p' s'
  | _ :: _, [] => false
  end.

Fixpoint includes (s p : JsString) : bool :=
  startsWith p s ||
  match s with
  | [] => false
  | _ :: s' => includes s' p
  end.

(** ECMAScript WhiteSpace and LineTerminator code points, the ones
    [String.prototype.trim] strips. *)
Definition isWhiteSpace (c : N) : bool :=
  ((9 <=? c) && (c <=? 13) || (c =? 32) || (c =? 160) || (c =? 5760)
   || (8192 <=? c) && (c <=? 8202) || (c =? 8232) || (c =? 8233)
   || (c =? 8239) || (c =? 8287) || (c =? 12288) || (c =? 65279))%N.

Fixpoint trimStart (s : JsString) : JsString :=
  match s with
  | c :: s' => if isWhiteSpace c then trimStart s' else s
  | [] => []
  end.

Definition trimEnd (s : JsString) : JsString := rev (trimStart (rev s)).

Definition trim (s : JsString) : JsString := trimEnd (trimStart s).

(** Lower-casing of one code unit.  The table is the Unicode one on
    U+0000..U+00FF (A-Z, and the Latin-1 capitals other than the
    multiplication sign); code units above U+00FF are left as they are. *)
Definition lowerUnit (c : N) : N :=
  (if (65 <=? c) && (c <=? 90) then c + 32
   else if (192 <=? c) && (c <=? 222) && negb (c =? 215) then c + 32
   else c)%N.

Definition toLowerCase (s : JsString) : JsString := map lowerUnit s.

(** The numbers of this model are the safe integers, [|n| < 2^53]: on
    them the arithmetic of doubles is exact and [Number::toString] prints
    every digit.  Fractions, [NaN], the infinities and the integers from
    [2^53] on are not values of the model; [-0] is not told from [0],
    which no operation modelled here can do either. *)
Definition isSafe (z : Z) : bool := (Z.abs z <? 9007199254740992)%Z.

Record SafeInt : Type := mkSafe {
  intValue : Z;
  intSafe : isSafe intValue = true
}.

Definition toSafe (z : Z) : option SafeInt :=
  match bool_dec (isSafe z) true with
  | left H => Some (mkSafe z H)
  | right _ => None
  end.

(** A numeric literal of the program text; every literal used below is a
    safe integer. *)
Definition int (z : Z) : SafeInt :=
  match toSafe z with
  | Some n => n
  | None => mkSafe 0 eq_refl
  end.

(** Values as they arrive in an activity or go through JSON.  An object
    is the list of its own properties, in property order; it inherits
    from [Object.prototype], an array from [Array.prototype].  Such
    values carry no function, so no own property of theirs is callable. *)
Inductive JsValue : Type :=
| JUndefined
| JNull
| JBool (b : bool)
| JNum (n : SafeInt)
| JStr (s : JsString)
| JArr (items : list JsValue)
| JObj (props : list (JsString * JsValue)).

(** Object-literal helpers: a string value and a property, from ASCII
    literals. *)
Definition str (s : string) : JsValue := JStr (u s).
Definition prop (k : string) (v : JsValue) : JsString * JsValue := (u k, v).

(** ToBoolean. *)
Definition truthy (v : JsValue) : bool :=
  match v with
  | JUndefined | JNull => false
  | JBool b => b
  | JNum n => negb (intValue n =? 0)%Z
  | JStr s => match s with [] => false | _ => true end
  | JArr _ | JObj _ => true
  end.

Definition numberToString (n : SafeInt) : JsString :=
  u (NilZero.string_of_int (Z.to_int (intValue n))).

Fixpoint join (sep : JsString) (l : list JsString) : JsString :=
  match l with
  | [] => []
  | [x] => x
  | x :: l' => x ++ sep ++ join sep l'
  end.

Fixpoint lookupProp (props : list (JsString * JsValue)) (k : JsString)
  : JsValue :=
  match props with
  | [] => JUndefined
  | (k', v) :: rest => if str_eqb k' k then v else lookupProp rest k
  end.

(** [Object.hasOwn(obj, k)]: a property held with the value [undefined]
    is still a property. *)
Fixpoint hasOwn (props : list (JsString * JsValue)) (k : JsString) : bool :=
  match props with
  | [] => false
  | (k', _) :: rest => str_eqb k' k || hasOwn rest k
  end.

(** An error object: [name], the [code] of a [NodeJS.ErrnoException]
    when it has one, and [message]. *)
Record JsError : Type := mkError {
  name : JsString;
  code : option JsString;
  message : JsString
}.

Definition Error (msg : JsString) : JsError := mkError (u "Error") None msg.
Definition TypeError (msg : JsString) : JsError :=
  mkError (u "TypeError") None msg.

(** How a statement completes: normally with a value, or by a throw. *)
Inductive Completion (A : Type) : Type :=
| Normal (a : A)
| Throw (e : JsError).
Arguments Normal {A} a.
Arguments Throw {A} e.

(** The elements of [Array.prototype.join], converted from left to right;
    the first conversion that throws ends the join. *)
Fixpoint joinAll (sep : JsString) (l : list (Completion JsString))
  : Completion JsString :=
  match l with
  | [] => Normal []
  | [x] => x
  | x :: l' =>
      match x with
      | Throw e => Throw e
      | Normal a =>
          match joinAll sep l' with
          | Throw e => Throw e
          | Normal b => Normal (a ++ sep ++ b)
          end
      end
  end.

(** ToString, as a template literal and a computed property key apply it.

    An array goes through [Array.prototype.toString], that is [join]: its
    elements converted and joined by commas, [null] and [undefined]
    elements being empty.

    An object goes through [OrdinaryToPrimitive] with hint string, which
    calls the first callable of its [toString] and [valueOf].  Without an
    own [toString] it inherits [Object.prototype.toString], which answers
    [[object Object]].  An own [toString] is not callable, and what
    is left is [valueOf]: an own one is not callable either, the inherited
    one returns the object itself, which is no primitive; the conversion
    then throws a TypeError. *)
Fixpoint toString (v : JsValue) : Completion JsString :=
  match v with
  | JUndefined => Normal (u "undefined")
  | JNull => Normal (u "null")
  | JBool true => Normal (u "true")
  | JBool false => Normal (u "false")
  | JNum n => Normal (numberToString n)
  | JStr s => Normal s
  | JArr items =>
      joinAll (u ",")
        (map (fun x => match x with
                       | JUndefined | JNull => Normal []
                       | _ => toString x
                       end) items)
  | JObj props =>
      if hasOwn props (u "toString")
      then Throw (TypeError (u "Cannot convert object to primitive value"))
      else Normal (u "[object Object]")
  end.

(** [v === s] for a string literal [s]. *)
Definition strictEqualsStr (v : JsValue) (s : JsString) : bool :=
  match v with
  | JStr t => str_eqb t s
  | _ => false
  end.

(** An effectful computation over a store [S]; the store survives a
    throw, as the heap and the file system do. *)
Definition Eff (S A : Type) : Type := S -> Completion A * S.

Definition ret {S A} (a : A) : Eff S A := fun s => (Normal a, s).

Definition bind {S A B} (m : Eff S A) (k : A -> Eff S B) : Eff S B :=
  fun s =>
    match m s with
    | (Normal a, s') => k a s'
    | (Throw e, s') => (Throw e, s')
    end.

Definition throw {S A} (e : JsError) : Eff S A := fun s => (Throw e, s).

(** [try { m } catch (error) { h error }]. *)
Definition tryCatch {S A} (m : Eff S A) (h : JsError -> Eff S A) : Eff S A :=
  fun s =>
    match m s with
    | (Normal a, s') => (Normal a, s')
    | (Throw e, s') => h e s'
    end.

Definition liftC {S A} (c : Completion A) : Eff S A := fun s => (c, s).

(** [v.k] for the property names this program reads ([type], [choice],
    [sprintId], [boardId], [sprintName], [sprintKey], [prompt],
    [conversation], [id]): reading
    from [undefined] or [null] throws a TypeError, an object gives its own
    property or [undefined], and no primitive or array has a property of
    one of these names. *)
Definition getProp (v : JsValue) (k : JsString) : Completion JsValue :=
  match v with
  | JUndefined =>
      Throw (TypeError (u "Cannot read properties of undefined (reading '"
                          ++ k ++ u "')"))
  | JNull =>
      Throw (TypeError (u "Cannot read properties of null (reading '"
                          ++ k ++ u "')"))
  | JObj props => Normal (lookupProp props k)
  | _ => Normal JUndefined
  end.

End Js.

Declare Scope eff_scope.
Delimit Scope eff_scope with eff.
Notation "x <- m ;; k" := (Js.bind m (fun x => k))
  (at level 100, m at next level, right associativity) : eff_scope.
Notation "m ;; k" := (Js.bind m (fun _ => k))
  (at level 100, right associativity) : eff_scope.

(* ===================================================================== *)
(** * The command dialog: src/dialogs/inputCardDialog.ts *)
(* ===================================================================== *)

Module Dialog.
Import Js.
Local Open Scope eff_scope.

(** The part of the incoming activity the dialog reads: [text] (absent or
    [null] is [None]) and [value], the payload of a submitted card. *)
Record Activity : Type := mkActivity {
  text : option JsString;
  value : JsValue
}.

Record Attachment : Type := mkAttachment {
  contentType : JsString;
  content : JsValue
}.

(** An outgoing message activity: text and/or attachments. *)
Record Outgoing : Type := mkOutgoing {
  out_text : option JsString;
  out_attachments : list Attachment
}.

(** The turn context: the activity being processed and the activities
    sent so far in this turn, oldest first. *)
Record TurnContext : Type := mkContext {
  activity : Activity;
  sent : list Outgoing
}.

Inductive DialogTurnStatus : Type := empty | waiting | complete | cancelled.

Record DialogTurnResult : Type := mkResult { status : DialogTurnStatus }.

Definition sendActivity (a : Outgoing) : Eff TurnContext unit :=
  fun c => (Normal tt, mkContext (activity c) (sent c ++ [a])).

(** [context.sendActivity(text)] with a string argument. *)
Definition sendText (s : JsString) : Eff TurnContext unit :=
  sendActivity (mkOutgoing (Some s) []).

(** [MessageFactory.attachment(CardFactory.adaptiveCard(card))]. *)
Definition adaptiveCard (card : JsValue) : Attachment :=
  mkAttachment (u "application/vnd.microsoft.card.adaptive") card.

Definition attachmentMessage (a : Attachment) : Outgoing :=
  mkOutgoing None [a].

Definition endDialog : Eff TurnContext DialogTurnResult :=
  ret (mkResult complete).

Definition jiraInformationCard : JsValue :=
  JObj [
    prop "type" (str "AdaptiveCard");
    prop "version" (str "1.3");
    prop "body" (JArr [
      JObj [ prop "type" (str "TextBlock");
             prop "text" (str "Configure Jira Notification Form");
             prop "weight" (str "Bolder");
             prop "size" (str "Medium");
             prop "color" (str "Accent") ];
      JObj [ prop "type" (str "TextBlock");
             prop "text" (str "Please fill out the JIRA Information:");
             prop "wrap" (JBool true);
             prop "spacing" (str "Medium") ];
      JObj [ prop "type" (str "Input.Text");
             prop "id" (str "sprintId");
             prop "label" (str "Sprint ID");
             prop "placeholder" (str "Enter the ID of your Sprint");
             prop "isRequired" (JBool true);
             prop "errorMessage" (str "Sprint ID is required") ];
      JObj [ prop "type" (str "Input.Text");
             prop "id" (str "boardId");
             prop "label" (str "Board Id");
             prop "placeholder" (str "Enter the ID of your Board");
             prop "isRequired" (JBool true);
             prop "errorMessage" (str "Board ID is required") ];
      JObj [ prop "type" (str "Input.Text");
             prop "id" (str "sprintKey");
             prop "label" (str "Sprint Key");
             prop "placeholder" (str "Enter the Key of your Sprint");
             prop "isRequired" (JBool false);
             prop "style" (str "Tel") ];
      JObj [ prop "type" (str "Input.Text");
             prop "id" (str "sprintName");
             prop "label" (str "Sprint Name");
             prop "placeholder" (str "Enter the Name of your Sprint");
             prop "isRequired" (JBool false);
             prop "style" (str "Tel") ] ]);
    prop "actions" (JArr [
      JObj [ prop "type" (str "Action.Submit");
             prop "title" (str "Schedule Notification");
             prop "data" (JObj [ prop "type" (str "jiraInformation") ]) ] ])
  ].

Definition cancelNotificationCard : JsValue :=
  JObj [
    prop "type" (str "AdaptiveCard");
    prop "version" (str "1.3");
    prop "body" (JArr [
      JObj [ prop "type" (str "TextBlock");
             prop "text" (str "Cancel Jira Notification");
             prop "weight" (str "Bolder");
             prop "size" (str "Medium");
             prop "color" (str "Accent") ];
      JObj [ prop "type" (str "Input.ChoiceSet");
             prop "id" (str "choice");
             prop "label"
               (str "Are you sure you want to cancel the notification?");
             prop "isRequired" (JBool true);
             prop "style" (str "compact");
             prop "isMultiSelect" (JBool false);
             prop "errorMessage" (str "Your choice is necessary.");
             prop "choices" (JArr [
               JObj [ prop "title" (str "Yes"); prop "value" (str "yes") ];
               JObj [ prop "title" (str "No"); prop "value" (str "no") ] ]) ]
      ]);
    prop "actions" (JArr [
      JObj [ prop "type" (str "Action.Submit");
             prop "title" (str "Submit Choice");
             prop "data" (JObj [ prop "type" (str "cancelNotification") ]) ] ])
  ].

Definition promptToAgentCard : JsValue :=
  JObj [
    prop "type" (str "AdaptiveCard");
    prop "version" (str "1.3");
    prop "body" (JArr [
      JObj [ prop "type" (str "TextBlock");
             prop "text" (str "Send Prompt To the Agent");
             prop "weight" (str "Bolder");
             prop "size" (str "Medium");
             prop "color" (str "Accent") ];
      JObj [ prop "type" (str "Input.Text");
             prop "id" (str "prompt");
             prop "label" (str "Prompt");
             prop "placeholder"
               (str "Enter the prompt you want to forward to the Agent");
             prop "isRequired" (JBool true);
             prop "style" (str "Tel") ] ]);
    prop "actions" (JArr [
      JObj [ prop "type" (str "Action.Submit");
             prop "title" (str "Submit Prompt");
             prop "data" (JObj [ prop "type" (str "prompt") ]) ] ])
  ].

Definition sendJiraInformationCard : Eff TurnContext unit :=
  sendActivity (attachmentMessage (adaptiveCard jiraInformationCard)).

Definition sendCancelNotificationCard : Eff TurnContext unit :=
  sendActivity (attachmentMessage (adaptiveCard cancelNotificationCard)).

Definition sendPromptToAgentCard : Eff TurnContext unit :=
  sendActivity (attachmentMessage (adaptiveCard promptToAgentCard)).

(** The non-ASCII openers of the message literals, code unit by code
    unit as the source file has them. *)
Definition crossMark : JsString := [8218; 249; 229]%N.
Definition checkMark : JsString := [8218; 250; 214]%N.
Definition robotFace : JsString := [63743; 252; 167; 241]%N.
Definition bullet : JsString := [8218; 196; 162]%N.
Definition nl : JsString := [10%N].

Definition requiredFieldsMessage : JsString :=
  crossMark ++
  u " Please fill in all required fields (Sprint ID and Board ID).".

(** The three template literals of the success message, once their
    substitutions have been converted to [sprintText] and [boardText]. *)
Definition createdText (sprintText boardText : JsString) : JsString :=
  (checkMark ++ u " **Notification Created Successfully!**" ++ nl ++ nl) ++
  (u "**Sprint ID:** " ++ sprintText ++ nl) ++
  (u "**Board ID:** " ++ boardText ++ nl).

(** The evaluation of the success message: [${sprintId}] is converted
    first, then [${boardId}], and a conversion that throws ends the
    evaluation. *)
Definition notificationCreatedMessage (sprintId boardId : JsValue)
  : Completion JsString :=
  match toString sprintId with
  | Throw e => Throw e
  | Normal sprintText =>
      match toString boardId with
      | Throw e => Throw e
      | Normal boardText => Normal (createdText sprintText boardText)
      end
  end.

Definition promptSentMessage : JsString :=
  checkMark ++ u " **Prompt Sent To Agent Successfully!**" ++ nl ++ nl.

Definition cancelledMessage : JsString :=
  checkMark ++ u " Notification successfully cancelled.".

Definition notCancelledMessage : JsString :=
  u "Notification has not been cancelled.".

Definition thankYouMessage : JsString := u "Thank you for your submission!".

Definition helpMessage : JsString :=
  (robotFace ++ u " **Available Commands:**" ++ nl ++ nl) ++
  (bullet ++ u " **Configure** - To setup a notification schedule."
     ++ nl ++ nl) ++
  (bullet ++
   u " **Prompt** - To make the agent execute a prompt of your choice."
     ++ nl ++ nl) ++
  (bullet ++ u " **Cancel** - To cancel a notification schedule."
     ++ nl ++ nl) ++
  u "Type any command to see the interactive card!".

Definition sendCommandList : Eff TurnContext unit := sendText helpMessage.

Definition handleJiraInformationSubmission (data : JsValue)
  : Eff TurnContext unit :=
  sprintId <- liftC (getProp data (u "sprintId")) ;;
  boardId <- liftC (getProp data (u "boardId")) ;;
  _sprintName <- liftC (getProp data (u "sprintName")) ;;
  _sprintKey <- liftC (getProp data (u "sprintKey")) ;;
  if negb (truthy sprintId) || negb (truthy boardId) then
    sendText requiredFieldsMessage
  else
    response <- liftC (notificationCreatedMessage sprintId boardId) ;;
    sendText response.

Definition handlePromptSubmission (data : JsValue) : Eff TurnContext unit :=
  _prompt <- liftC (getProp data (u "prompt")) ;;
  sendText promptSentMessage.

Definition handleCancelNotificationSubmission (data : JsValue)
  : Eff TurnContext unit :=
  choice <- liftC (getProp data (u "choice")) ;;
  let response :=
    if strictEqualsStr choice (u "yes") then cancelledMessage
    else if strictEqualsStr choice (u "no") then notCancelledMessage
    else [] in
  sendText response.

Definition handleCardSubmission : Eff TurnContext unit :=
  fun context =>
    (let submissionData := value (activity context) in
     submissionType <- liftC (getProp submissionData (u "type")) ;;
     if strictEqualsStr submissionType (u "jiraInformation") then
       handleJiraInformationSubmission submissionData
     else if strictEqualsStr submissionType (u "cancelNotification") then
       handleCancelNotificationSubmission submissionData
     else if strictEqualsStr submissionType (u "prompt") then
       handlePromptSubmission submissionData
     else
       sendText thankYouMessage) context.

(** [userMessage === cmd], [userMessage] being a string or [undefined]. *)
Definition isCommand (userMessage : option JsString) (cmd : string) : bool :=
  match userMessage with
  | Some m => str_eqb m (u cmd)
  | None => false
  end.

Definition processUserInputStep : Eff TurnContext DialogTurnResult :=
  fun context =>
    (let userMessage :=
       option_map (fun t => trim (toLowerCase t)) (text (activity context)) in
     (if truthy (value (activity context)) then handleCardSubmission
      else if isCommand userMessage "help" then sendCommandList
      else if isCommand userMessage "configure" then sendJiraInformationCard
      else if isCommand userMessage "prompt" then sendPromptToAgentCard
      else if isCommand userMessage "cancel" then sendCancelNotificationCard
      else sendCommandList) ;;
     endDialog) context.

End Dialog.

(* ===================================================================== *)
(** * A JSON codec for the in-memory runtime *)
(* ===================================================================== *)

(** [JsonDb] reaches [JSON.stringify] and [JSON.parse] through the
    interface [Db.Runtime], and its properties are proved for every
    implementation of that interface.  This module is the codec of the
    in-memory implementation on which they are run: it prints a value as
    SerializeJSONProperty does, and it reads the JSON texts whose numbers
    are safe-integer literals.  A literal with a fraction or an exponent,
    or beyond [2^53], denotes a number that is not a value of the model;
    this codec has no result for it and refuses the text. *)
Module Json.
Import Js.

Definition hexDigit (d : N) : N := (if d <? 10 then 48 + d else 87 + d)%N.

(** [\uXXXX], lower-case hexadecimal. *)
Definition unicodeEscape (c : N) : JsString :=
  [92; 117; hexDigit (c / 4096 mod 16); hexDigit (c / 256 mod 16);
   hexDigit (c / 16 mod 16); hexDigit (c mod 16)]%N.

(** QuoteJSONString, one code unit that is not half of a surrogate pair:
    the two-character escapes, [\u00XX] for the other control characters,
    [\uDXXX] for a lone surrogate. *)
Definition quoteUnit (c : N) : JsString :=
  (if c =? 8 then [92; 98]
   else if c =? 9 then [92; 116]
   else if c =? 10 then [92; 110]
   else if c =? 12 then [92; 102]
   else if c =? 13 then [92; 114]
   else if c =? 34 then [92; 34]
   else if c =? 92 then [92; 92]
   else if c <? 32 then unicodeEscape c
   else if (55296 <=? c) && (c <=? 57343) then unicodeEscape c
   else [c])%N.

Definition isLeadingSurrogate (c : N) : bool :=
  ((55296 <=? c) && (c <=? 56319))%N.
Definition isTrailingSurrogate (c : N) : bool :=
  ((56320 <=? c) && (c <=? 57343))%N.

(** The code points of the string, from left to right: a leading
    surrogate followed by a trailing one is one code point and is copied
    as it is. *)
Fixpoint quoteChars (s : JsString) : JsString :=
  match s with
  | [] => []
  | c :: rest =>
      if isLeadingSurrogate c then
        match rest with
        | d :: rest' =>
            if isTrailingSurrogate d then c :: d :: quoteChars rest'
            else quoteUnit c ++ quoteChars rest
        | [] => quoteUnit c
        end
      else quoteUnit c ++ quoteChars rest
  end.

Definition quote (s : JsString) : JsString :=
  [34%N] ++ quoteChars s ++ [34%N].

(** The [gap] of [JSON.stringify(_, null, indent)]: [indent] spaces, at
    most ten, none when [indent] is below one. *)
Definition gapOf (indent : Z) : JsString :=
  repeat 32%N (Z.to_nat (Z.min 10 indent)).

Definition nl_indent (i : JsString) : JsString := 10%N :: i.

Definition wrap (gap stepback : JsString) (open_ close_ : N)
  (partial : list JsString) : JsString :=
  match partial with
  | [] => [open_; close_]
  | _ =>
      if isEmpty gap then [open_] ++ join [44%N] partial ++ [close_]
      else
        let indent := stepback ++ gap in
        [open_] ++ nl_indent indent ++
        join ([44%N] ++ nl_indent indent) partial ++
        nl_indent stepback ++ [close_]
  end.

(** SerializeJSONProperty: [None] is the [undefined] result.  An
    [undefined] array element prints as [null]; an [undefined] property
    is left out. *)
Fixpoint serialize (gap stepback : JsString) (v : JsValue)
  : option JsString :=
  match v with
  | JUndefined => None
  | JNull => Some (u "null")
  | JBool true => Some (u "true")
  | JBool false => Some (u "false")
  | JNum n => Some (numberToString n)
  | JStr s => Some (quote s)
  | JArr items =>
      Some (wrap gap stepback 91 93
        (map (fun x =>
                match serialize gap (stepback ++ gap) x with
                | Some t => t
                | None => u "null"
                end) items))
  | JObj props =>
      Some (wrap gap stepback 123 125
        (flat_map (fun kv =>
                match serialize gap (stepback ++ gap) (snd kv) with
                | Some t =>
                    [quote (fst kv) ++ [58%N] ++
                     (if isEmpty gap then [] else [32%N]) ++ t]
                | None => []
                end) props))
  end.

Definition stringify (v : JsValue) (indent : Z) : option JsString :=
  serialize (gapOf indent) [] v.


(** ** JSON.parse *)

Definition SyntaxError (msg : JsString) : JsError :=
  mkError (u "SyntaxError") None msg.

Definition isJsonWs (c : N) : bool :=
  ((c =? 32) || (c =? 9) || (c =? 10) || (c =? 13))%N.

Fixpoint skipWs (s : JsString) : JsString :=
  match s with
  | c :: s' => if isJsonWs c then skipWs s' else s
  | [] => []
  end.

Fixpoint stripPrefix (p s : JsString) : option JsString :=
  match p, s with
  | [], _ => Some s
  | x :: p', y :: s' => if N.eqb x y then stripPrefix p' s' else None
  | _ :: _, [] => None
  end.

Definition isDigit (c : N) : bool := ((48 <=? c) && (c <=? 57))%N.

Definition hexValue (c : N) : option N :=
  (if (48 <=? c) && (c <=? 57) then Some (c - 48)
   else if (97 <=? c) && (c <=? 102) then Some (c - 87)
   else if (65 <=? c) && (c <=? 70) then Some (c - 55)
   else None)%N.

Definition hex4 (a b c d : N) : option N :=
  match hexValue a, hexValue b, hexValue c, hexValue d with
  | Some x, Some y, Some z, Some w =>
      Some (x * 4096 + y * 256 + z * 16 + w)%N
  | _, _, _, _ => None
  end.

(** The code unit a two-character escape stands for. *)
Definition simpleEscape (e : N) : option N :=
  (if e =? 34 then Some 34
   else if e =? 92 then Some 92
   else if e =? 47 then Some 47
   else if e =? 98 then Some 8
   else if e =? 102 then Some 12
   else if e =? 110 then Some 10
   else if e =? 114 then Some 13
   else if e =? 116 then Some 9
   else None)%N.

(** The characters of a string literal, after its opening quote, up to
    and past the closing one. *)
Fixpoint parseChars (s : JsString) : option (JsString * JsString) :=
  let cons (c : N) (r : option (JsString * JsString)) :=
    match r with
    | Some (cs, rest) => Some (c :: cs, rest)
    | None => None
    end in
  match s with
  | [] => None
  | c :: s1 =>
      if (c =? 34)%N then Some ([], s1)
      else if (c =? 92)%N then
        match s1 with
        | [] => None
        | e :: s2 =>
            if (e =? 117)%N then
              match s2 with
              | a :: b :: c' :: d :: s6 =>
                  match hex4 a b c' d with
                  | Some x => cons x (parseChars s6)
                  | None => None
                  end
              | _ => None
              end
            else
              match simpleEscape e with
              | Some x => cons x (parseChars s2)
              | None => None
              end
        end
      else if (c <? 32)%N then None
      else cons c (parseChars s1)
  end.

Fixpoint parseDigits (acc : N) (s : JsString) : N * JsString :=
  match s with
  | c :: s' =>
      if isDigit c then parseDigits (acc * 10 + (c - 48)) s' else (acc, s)
  | [] => (acc, [])
  end.

(** What may not follow an integer literal: a further digit, or the
    start of a fraction or an exponent. *)
Definition endsNumber (rest : JsString) : bool :=
  match rest with
  | c :: _ =>
      negb (isDigit c || (c =? 46)%N || (c =? 101)%N || (c =? 69)%N)
  | [] => true
  end.

(** The digits of an integer literal: [0], or a digit sequence without
    a leading zero. *)
Definition parseNatural (s : JsString) : option (N * JsString) :=
  match s with
  | d :: r =>
      if isDigit d then
        let (n, rest) :=
          if (d =? 48)%N then (0%N, r) else parseDigits 0 s in
        if endsNumber rest then Some (n, rest) else None
      else None
  | [] => None
  end.

(** An integer literal: an optional minus sign, then the digits. *)
Definition parseNumber (s : JsString) : option (Z * JsString) :=
  match s with
  | c :: r =>
      if (c =? 45)%N then
        match parseNatural r with
        | Some (n, rest) => Some ((- Z.of_N n)%Z, rest)
        | None => None
        end
      else
        match parseNatural s with
        | Some (n, rest) => Some (Z.of_N n, rest)
        | None => None
        end
  | [] => None
  end.

(** A key read twice keeps its first position and takes the later value. *)
Fixpoint setProp (props : list (JsString * JsValue)) (k : JsString)
  (v : JsValue) : list (JsString * JsValue) :=
  match props with
  | [] => [(k, v)]
  | (k', v') :: rest =>
      if str_eqb k' k then (k', v) :: rest else (k', v') :: setProp rest k v
  end.

Fixpoint parseValue (fuel : nat) (s : JsString)
  : option (JsValue * JsString) :=
  match fuel with
  | O => None
  | S f =>
      match skipWs s with
      | [] => None
      | c :: rest =>
          if (c =? 110)%N then
            option_map (pair JNull) (stripPrefix (u "null") (c :: rest))
          else if (c =? 116)%N then
            option_map (pair (JBool true)) (stripPrefix (u "true") (c :: rest))
          else if (c =? 102)%N then
            option_map (pair (JBool false))
              (stripPrefix (u "false") (c :: rest))
          else if (c =? 34)%N then
            match parseChars rest with
            | Some (cs, r) => Some (JStr cs, r)
            | None => None
            end
          else if (c =? 91)%N then
            match skipWs rest with
            | c' :: r =>
                if (c' =? 93)%N then Some (JArr [], r)
                else
                  match parseElements f (c' :: r) with
                  | Some (vs, r') => Some (JArr vs, r')
                  | None => None
                  end
            | [] => None
            end
          else if (c =? 123)%N then
            match skipWs rest with
            | c' :: r =>
                if (c' =? 125)%N then Some (JObj [], r)
                else
                  match parseMembers f [] (c' :: r) with
                  | Some (ps, r') => Some (JObj ps, r')
                  | None => None
                  end
            | [] => None
            end
          else
            match parseNumber (c :: rest) with
            | Some (z, r) =>
                match toSafe z with
                | Some n => Some (JNum n, r)
                | None => None
                end
            | None => None
            end
      end
  end
with parseElements (fuel : nat) (s : JsString)
  : option (list JsValue * JsString) :=
  match fuel with
  | O => None
  | S f =>
      match parseValue f s with
      | Some (v, r) =>
          match skipWs r with
          | c :: r' =>
              if (c =? 44)%N then
                match parseElements f r' with
                | Some (vs, r'') => Some (v :: vs, r'')
                | None => None
                end
              else if (c =? 93)%N then Some ([v], r')
              else None
          | [] => None
          end
      | None => None
      end
  end
with parseMembers (fuel : nat) (acc : list (JsString * JsValue))
  (s : JsString) : option (list (JsString * JsValue) * JsString) :=
  match fuel with
  | O => None
  | S f =>
      match skipWs s with
      | q :: r0 =>
          if (q =? 34)%N then
            match parseChars r0 with
            | Some (k, r1) =>
                match skipWs r1 with
                | c :: r2 =>
                    if (c =? 58)%N then
                      match parseValue f r2 with
                      | Some (v, r3) =>
                          let acc' := setProp acc k v in
                          match skipWs r3 with
                          | d :: r4 =>
                              if (d =? 44)%N then parseMembers f acc' r4
                              else if (d =? 125)%N then Some (acc', r4)
                              else None
                          | [] => None
                          end
                      | None => None
                      end
                    else None
                | [] => None
                end
            | None => None
            end
          else None
      | [] => None
      end
  end.

(** [JSON.parse(text)]: one value between optional white space, or a
    SyntaxError.  The messages are this codec's; an engine words them in
    its own way. *)
Definition parse (text : JsString) : Completion JsValue :=
  match parseValue (2 * List.length text + 2) text with
  | Some (v, rest) =>
      match skipWs rest with
      | [] => Normal v
      | _ =>
          Throw (SyntaxError
                   (u "Unexpected non-whitespace character after JSON"))
      end
  | None =>
      match skipWs text with
      | [] => Throw (SyntaxError (u "Unexpected end of JSON input"))
      | _ => Throw (SyntaxError (u "Unexpected token in JSON"))
      end
  end.

End Json.

(* ===================================================================== *)
(** * The JSON file store: class JsonDb *)
(* ===================================================================== *)

Module Db.
Import Js.
Local Open Scope eff_scope.

(** What [JsonDb] imports from Node and the language: [path.dirname],
    the four [fs] calls (on a file-system state [FS]; [mkdirSync] is the
    call with [{ recursive: true }], [writeFileSync] and [readFileSync]
    the ones with ['utf8']) and the two [JSON] functions.
    [JSON.stringify] yields [None] where it returns [undefined].

    [store<T>] and [load<T>] are generic in the data: they hand it to
    [JSON.stringify] and return what [JSON.parse] gives, and look at it
    nowhere.  [Value] is the type of the values of the language, whatever
    they are. *)
Class Runtime : Type := {
  FS : Type;
  Value : Type;
  dirname : JsString -> JsString;
  mkdirSync : JsString -> Eff FS unit;
  writeFileSync : JsString -> option JsString -> Eff FS unit;
  readFileSync : JsString -> FS -> Completion JsString;
  accessSync : JsString -> FS -> Completion unit;
  JSON_stringify : Value -> Z -> option JsString;
  JSON_parse : JsString -> Completion Value
}.

(** The world [JsonDb] acts on: the file system and the console. *)
Record WorldOf (F : Type) : Type := mkWorld {
  files : F;
  console : list (list JsString)
}.
Arguments mkWorld {F} _ _.
Arguments files {F} _.
Arguments console {F} _.

Section JsonDb.
Context {rt : Runtime}.

Definition World : Type := WorldOf FS.

Definition onFs {A} (m : Eff FS A) : Eff World A :=
  fun w =>
    let (c, fs') := m (files w) in (c, mkWorld fs' (console w)).

Definition readFs {A} (f : FS -> Completion A) : Eff World A :=
  fun w => (f (files w), w).

Definition console_log (args : list JsString) : Eff World unit :=
  fun w => (Normal tt, mkWorld (files w) (console w ++ [args])).

(** [options?: { createDirectory?: boolean; indent?: number }]. *)
Record StoreOptions : Type := mkOptions {
  createDirectory : option bool;
  indent : option Z
}.

Definition orDefault {A} (o : option A) (d : A) : A :=
  match o with Some a => a | None => d end.

Definition store (filePath : JsString) (data : Value)
  (options : option StoreOptions) : Eff World unit :=
  let opts := orDefault options (mkOptions None None) in
  let createDirectory := orDefault (createDirectory opts) true in
  let indent := orDefault (indent opts) 2%Z in
  tryCatch
    ((if createDirectory then
        let directory := dirname filePath in
        onFs (mkdirSync directory)
      else ret tt) ;;
     let jsonString := JSON_stringify data indent in
     onFs (writeFileSync filePath jsonString))
    (fun error =>
       throw (Error (u "Failed to store data to " ++ filePath ++ u ": " ++
                     message error))).

Definition codeIs (error : JsError) (c : string) : bool :=
  match code error with
  | Some k => str_eqb k (u c)
  | None => false
  end.

Definition load (filePath : JsString) : Eff World Value :=
  tryCatch
    (fileContent <- readFs (readFileSync filePath) ;;
     liftC (JSON_parse fileContent))
    (fun error =>
       if codeIs error "ENOENT" then
         (console_log [u "File not found, throwing error for:"; filePath] ;;
          throw (Error (u "File not found ")))
       else
         throw (Error (u "Failed to load data from " ++ filePath ++ u ": " ++
                       message error))).

Definition exists_ (filePath : JsString) : Eff World bool :=
  tryCatch
    (readFs (accessSync filePath) ;; ret true)
    (fun _ => ret false).

End JsonDb.

(** ** An in-memory implementation of the interface

    The implementation on which the properties are run.  It is a file
    system without links in which every path is taken as written: ["."]
    and ["/"] always exist as directories, a path names a file or a
    directory once it has been created under that very name, and [".."]
    or a doubled or trailing slash is not resolved. *)

Inductive Node : Type := File (content : JsString) | Directory.

(** The latest binding of a path comes first. *)
Definition MemFs := list (JsString * Node).

Fixpoint memLookup (fs : MemFs) (p : JsString) : option Node :=
  match fs with
  | [] => None
  | (q, n) :: rest => if str_eqb q p then Some n else memLookup rest p
  end.

Definition isSlash (c : N) : bool := (c =? 47)%N.

(** [path.posix.dirname], on the reversed path: trailing slashes are
    dropped, then the last component with the slash before it. *)
Fixpoint dropComponent (r : JsString) : JsString :=
  match r with
  | c :: r' => if isSlash c then r' else dropComponent r'
  | [] => []
  end.

Fixpoint dropSlashes (r : JsString) : JsString :=
  match r with
  | c :: r' => if isSlash c then dropSlashes r' else r
  | [] => []
  end.

Definition hasSlash (s : JsString) : bool := existsb isSlash s.

Definition posixDirname (p : JsString) : JsString :=
  match p with
  | [] => u "."
  | c0 :: tail =>
      let body := dropSlashes (rev tail) in
      if hasSlash body then
        match rev (dropComponent body) with
        | [] => if isSlash c0 then u "//" else [c0]
        | t => c0 :: t
        end
      else if isSlash c0 then u "/" else u "."
  end.

Definition errno (c syscall : string) (desc : string) (p : JsString)
  : JsError :=
  mkError (u "Error") (Some (u c))
    (u c ++ u ": " ++ u desc ++ u ", " ++ u syscall ++ u " '" ++ p ++ u "'").

Definition isRootDir (p : JsString) : bool :=
  str_eqb p (u ".") || str_eqb p (u "/").

Definition endsWithSlash (p : JsString) : bool :=
  match rev p with c :: _ => isSlash c | [] => false end.

Definition memIsDir (fs : MemFs) (p : JsString) : bool :=
  isRootDir p ||
  match memLookup fs p with Some Directory => true | _ => false end.

Fixpoint memMkdir (fuel : nat) (d : JsString) (fs : MemFs)
  : Completion unit * MemFs :=
  if memIsDir fs d then (Normal tt, fs)
  else
    match memLookup fs d with
    | Some (File _) =>
        (Throw (errno "EEXIST" "mkdir" "file already exists" d), fs)
    | _ =>
        match fuel with
        | O =>
            (Throw (errno "ENOENT" "mkdir" "no such file or directory" d), fs)
        | S f =>
            match memMkdir f (posixDirname d) fs with
            | (Normal _, fs') => (Normal tt, (d, Directory) :: fs')
            | (Throw e, fs') =>
                (Throw (errno "ENOTDIR" "mkdir" "not a directory" d), fs')
            end
        end
    end.

Definition memWriteFile (p : JsString) (data : option JsString)
  : Eff MemFs unit :=
  fun fs =>
    match data with
    | None =>
        (Throw (mkError (u "TypeError") (Some (u "ERR_INVALID_ARG_TYPE"))
                  (u "The data argument must be of type string")),
         fs)
    | Some s =>
        if isEmpty p then
          (Throw (errno "ENOENT" "open" "no such file or directory" p), fs)
        else if isRootDir p || endsWithSlash p then
          (Throw (errno "EISDIR" "open" "illegal operation on a directory" p),
           fs)
        else
          match memLookup fs p with
          | Some Directory =>
              (Throw
                 (errno "EISDIR" "open" "illegal operation on a directory" p),
               fs)
          | _ =>
              if memIsDir fs (posixDirname p) then
                (Normal tt, (p, File s) :: fs)
              else
                (Throw (errno "ENOENT" "open" "no such file or directory" p),
                 fs)
          end
    end.

Definition memReadFile (p : JsString) (fs : MemFs) : Completion JsString :=
  match memLookup fs p with
  | Some (File s) => Normal s
  | Some Directory =>
      Throw (errno "EISDIR" "read" "illegal operation on a directory" p)
  | None =>
      if isRootDir p then
        Throw (errno "EISDIR" "read" "illegal operation on a directory" p)
      else Throw (errno "ENOENT" "open" "no such file or directory" p)
  end.

Definition memAccess (p : JsString) (fs : MemFs) : Completion unit :=
  if isRootDir p then Normal tt
  else
    match memLookup fs p with
    | Some _ => Normal tt
    | None => Throw (errno "ENOENT" "access" "no such file or directory" p)
    end.

#[export] Instance memRuntime : Runtime := {
  FS := MemFs;
  Value := JsValue;
  dirname := posixDirname;
  mkdirSync := fun d fs => memMkdir (List.length d) d fs;
  writeFileSync := memWriteFile;
  readFileSync := memReadFile;
  accessSync := memAccess;
  JSON_stringify := Json.stringify;
  JSON_parse := Json.parse
}.

Definition emptyWorld : WorldOf MemFs := mkWorld [] [].

End Db.

(* ===================================================================== *)
(** * Vocabulary of the properties *)
(* ===================================================================== *)

Module Spec.
Import Js Dialog Db.

(** The context after one more activity has been sent. *)
Definition after (c : TurnContext) (a : Outgoing) : TurnContext :=
  mkContext (activity c) (sent c ++ [a]).

Definition textReply (s : JsString) : Outgoing := mkOutgoing (Some s) [].

Definition cardReply (card : JsValue) : Outgoing :=
  attachmentMessage (adaptiveCard card).

(** The turn with the given text and payload, nothing sent yet. *)
Definition turn (t : option JsString) (v : JsValue) : TurnContext :=
  mkContext (mkActivity t v) [].

(** The normalised command of a text: lower-cased, then trimmed. *)
Definition normalized (t : option JsString) : option JsString :=
  option_map (fun s => trim (toLowerCase s)) t.

(** The specification's reading of a required field that is "missing,
    empty, or blank after trimming". *)
Definition spec_missingOrBlank (v : JsValue) : bool :=
  match v with
  | JUndefined | JNull => true
  | JStr s => isEmpty (trim s)
  | _ => false
  end.

(** The specification's condition for the required-fields error: one of
    the two fields is missing or blank. *)
Definition spec_requiresFields (sprintId boardId : JsValue) : bool :=
  spec_missingOrBlank sprintId || spec_missingOrBlank boardId.


(** The values that [toString] converts: all but an object with an own
    [toString] property, and an array that holds such an object at any
    depth. *)
Fixpoint convertible (v : JsValue) : bool :=
  match v with
  | JObj props => negb (hasOwn props (u "toString"))
  | JArr items => forallb convertible items
  | _ => true
  end.

(** What a handler leaves that sends one activity unless it throws
    first: the activity appended to those sent, or the error and the
    context as it was. *)
Definition delivered (c : TurnContext) (o : Completion Outgoing)
  : Completion unit * TurnContext :=
  match o with
  | Normal a => (Normal tt, after c a)
  | Throw e => (Throw e, c)
  end.

(** The same, for the whole step. *)
Definition stepped (c : TurnContext) (o : Completion Outgoing)
  : Completion DialogTurnResult * TurnContext :=
  match o with
  | Normal a => (Normal (mkResult complete), after c a)
  | Throw e => (Throw e, c)
  end.

(** The two required fields of a payload that is a jiraInformation
    submission in which both are given (truthy). *)
Definition jiraFieldsGiven (v : JsValue) : option (JsValue * JsValue) :=
  match v with
  | JObj props =>
      let sprintId := lookupProp props (u "sprintId") in
      let boardId := lookupProp props (u "boardId") in
      if strictEqualsStr (lookupProp props (u "type")) (u "jiraInformation")
         && truthy sprintId && truthy boardId
      then Some (sprintId, boardId)
      else None
  | _ => None
  end.

(** What a caller observes of one step: how it completed and everything
    sent by its end. *)
Definition outcome (c : TurnContext)
  : Completion DialogTurnResult * list Outgoing :=
  let (r, c') := processUserInputStep c in (r, sent c').

(** The discriminants of the three card submissions, and the two choices
    of the cancel card. *)
Definition submissionTypes : list JsString :=
  [u "jiraInformation"; u "cancelNotification"; u "prompt"].

Definition cancelChoices : list JsString := [u "yes"; u "no"].

(** [t] is [k] up to letter case and surrounding white space, but is not
    [k] itself. *)
Definition variantOf (t k : JsString) : Prop :=
  trim (toLowerCase t) = toLowerCase k /\ t <> k.

Section Store.
Context {rt : Runtime}.

(** What the [try] block of [load] evaluates to: the underlying result,
    before the [catch] rewrites a failure. *)
Definition loadAttempt (p : JsString) (w : World) : Completion Value :=
  match readFileSync p (files w) with
  | Normal s => JSON_parse s
  | Throw e => Throw e
  end.

(** The specification's reading of the failures of [load]: whatever
    fails underneath, [load] fails with an error whose message carries
    the underlying message. *)
Definition spec_carriesOriginal (p : JsString) (w : World) : Prop :=
  forall e0,
    loadAttempt p w = Throw e0 ->
    exists e w',
      load p w = (Throw e, w') /\
      includes (message e) (message e0) = true.

(** The indentation [store] passes to [JSON.stringify]. *)
Definition indentOf (options : option StoreOptions) : Z :=
  orDefault (indent (orDefault options (mkOptions None None))) 2%Z.



End Store.

(** Sample values: a nested record, and a collection of a thousand
    records. *)
Definition complexData : JsValue :=
  JObj [
    prop "users" (JArr [
      JObj [ prop "id" (JNum (int 1)); prop "name" (str "User One");
             prop "active" (JBool true) ];
      JObj [ prop "id" (JNum (int 2)); prop "name" (str "User Two");
             prop "active" (JBool false) ] ]);
    prop "metadata" (JObj [
      prop "created" (str "2025-06-01T12:00:00.000Z");
      prop "version" (str "2.0.1");
      prop "description" (str "Test data for complex objects") ]);
    prop "status" JNull
  ].

Definition largeItem (i : nat) : JsValue :=
  let n := numberToString (int (Z.of_nat i)) in
  JObj [
    prop "id" (JNum (int (Z.of_nat i)));
    prop "name" (JStr (u "Item " ++ n));
    prop "tags" (JArr [JStr (u "tagA-" ++ n); JStr (u "tagB-" ++ n);
                       JStr (u "tagC-" ++ n); JStr (u "tagD-" ++ n)]);
    prop "details" (JObj [
      prop "stock" (JNum (int (Z.of_nat (i * 7 mod 1000))));
      prop "isActive" (JBool (Nat.eqb (i mod 3) 0));
      prop "nestedInfo" (JObj [
        prop "code" (JStr (u "CODE-" ++ n));
        prop "notes" (JStr (u "Some notes for item " ++ n ++ u ".")) ]) ])
  ].

Definition largeData : JsValue :=
  JObj [ prop "items" (JArr (map largeItem (seq 0 1000))) ].

(** [store] at a path, then [load] of it, from the empty world. *)
Definition storeThenLoad (p : JsString) (v : JsValue)
  : Completion JsValue :=
  fst (bind (store (rt := memRuntime) p v None) (fun _ => load p)
         emptyWorld).

End Spec.

(* ===================================================================== *)
(** * The bot's registry of conversations: src/bots/inputBot.ts *)
(* ===================================================================== *)

Module Bot.
Import Js.
Local Open Scope eff_scope.

(** One argument of a [console] call. *)
Inductive LogArg : Type :=
| LogText (s : JsString)
| LogValue (v : JsValue)
| LogError (e : JsError).

(** What [addConversationReference] acts on: [conversationReferences],
    an ordinary object used as a map (its own properties; those with
    integer-like keys are not kept apart, so the order of the list is not
    the enumeration order in their presence), the prototype of that
    object ([None] is [Object.prototype], its initial one) and the lines
    written to the console. *)
Record BotState : Type := mkBot {
  conversationReferences : list (JsString * JsValue);
  prototype : option JsValue;
  logged : list (list LogArg)
}.

Definition console_log (args : list LogArg) : Eff BotState unit :=
  fun st =>
    (Normal tt,
     mkBot (conversationReferences st) (prototype st) (logged st ++ [args])).

Definition isObjectOrNull (v : JsValue) : bool :=
  match v with
  | JObj _ | JArr _ | JNull => true
  | _ => false
  end.

(** [this.conversationReferences[key] = v].  The key [__proto__] reaches
    the setter of [Object.prototype], which replaces the prototype when
    [v] is an object or [null] and does nothing otherwise; once the
    prototype is [null] there is no setter and the key is a property like
    any other. *)
Definition assign (key : JsString) (v : JsValue) : Eff BotState unit :=
  fun st =>
    let setOwn :=
      mkBot (Json.setProp (conversationReferences st) key v)
        (prototype st) (logged st) in
    if str_eqb key (u "__proto__") then
      match prototype st with
      | Some JNull => (Normal tt, setOwn)
      | _ =>
          if isObjectOrNull v then
            (Normal tt, mkBot (conversationReferences st) (Some v) (logged st))
          else (Normal tt, st)
      end
    else (Normal tt, setOwn).

Section InputCardBot.

(** [TurnContext.getConversationReference], of the SDK. *)
Variable getConversationReference : JsValue -> JsValue.

Definition addConversationReference (activity : JsValue)
  : Eff BotState unit :=
  let conversationReference := getConversationReference activity in
  console_log [LogText (u "logging the conversation reference")] ;;
  console_log [LogValue conversationReference] ;;
  conversation <- liftC (getProp conversationReference (u "conversation")) ;;
  id <- liftC (getProp conversation (u "id")) ;;
  key <- liftC (toString id) ;;
  assign key conversationReference.

End InputCardBot.

End Bot.

(* ===================================================================== *)
(** * The agent notifier: src/agentService/agent.ts *)
(* ===================================================================== *)

Module Agent.
Import Js.
Local Open Scope eff_scope.

Record AgentRequest : Type := mkRequest {
  conversationId : JsString;
  sprintId : JsString;
  boardId : JsString;
  sprintName : JsString;
  sprintKey : JsString
}.

(** The configuration [{ data: data }] and the part of a response that
    [sendMessage] reads. *)
Record AxiosRequestConfig : Type := mkConfig { data : AgentRequest }.
Record AxiosResponse : Type := mkAxiosResponse { response_data : JsValue }.

(** What [sendMessage] imports from axios: [axios.get(url, config)] on a
    state [NET] of the network, and [axios.isAxiosError]. *)
Class Axios : Type := {
  NET : Type;
  axios_get : JsString -> AxiosRequestConfig -> Eff NET AxiosResponse;
  isAxiosError : JsError -> bool
}.

Inductive Stream : Type := Stdout | Stderr.

Section AgentService.
Context {ax : Axios}.

(** [process.env.AgentURL], the network and the console. *)
Record AgentWorld : Type := mkAgentWorld {
  agentURL : option JsString;
  net : NET;
  output : list (Stream * list Bot.LogArg)
}.

Definition console_to (st : Stream) (args : list Bot.LogArg)
  : Eff AgentWorld unit :=
  fun w =>
    (Normal tt, mkAgentWorld (agentURL w) (net w) (output w ++ [(st, args)])).

Definition onNet {A} (m : Eff NET A) : Eff AgentWorld A :=
  fun w =>
    let (c, n') := m (net w) in (c, mkAgentWorld (agentURL w) n' (output w)).

Definition envAgentURL : Eff AgentWorld (option JsString) :=
  fun w => (Normal (agentURL w), w).

(** [!baseUrl] for a string or [undefined]. *)
Definition unset (baseUrl : option JsString) : bool :=
  match baseUrl with
  | None | Some [] => true
  | Some (_ :: _) => false
  end.

(** [`${baseUrl}`]: an [undefined] would print as "undefined". *)
Definition show (baseUrl : option JsString) : JsString :=
  match baseUrl with
  | Some b => b
  | None => u "undefined"
  end.

Definition sendMessage (data : AgentRequest) : Eff AgentWorld JsValue :=
  baseUrl <- envAgentURL ;;
  if unset baseUrl then
    (console_to Stderr
       [Bot.LogText (u "Error: AgentURL environment variable is not set.")] ;;
     throw (Error (u "AgentURL environment variable is not set.")))
  else
    let url := show baseUrl ++ u "/message" in
    (console_to Stdout [Bot.LogText (u "Sending GET request to: " ++ url)] ;;
     tryCatch
       (response <- onNet (axios_get url (mkConfig data)) ;;
        ret (response_data response))
       (fun error =>
          (if isAxiosError error then ret tt
           else console_to Stderr
                  [Bot.LogText (u "An unexpected error occurred:");
                   Bot.LogError error]) ;;
          throw error)).

End AgentService.

End Agent.

(* ===================================================================== *)
(** * The proactive-notification routes of the server (index.ts) *)
(* ===================================================================== *)

Module Server.
Import Js.
Local Open Scope eff_scope.

(** One call [adapter.continueConversationAsync(appId, reference, logic)]:
    the application id, the conversation reference, and what the logic
    passes to [sendActivity]. *)
Record ProactiveCall : Type := mkCall {
  botAppId : option JsString;
  reference : JsValue;
  toSend : JsValue
}.

(** The response under construction. *)
Record Response : Type := mkResponse {
  headers : list (JsString * JsString);
  statusCode : option Z;
  written : list JsString;
  ended : bool
}.

Record ServerState : Type := mkServer {
  calls : list ProactiveCall;
  res : Response
}.

Definition onRes (f : Response -> Response) : Eff ServerState unit :=
  fun st => (Normal tt, mkServer (calls st) (f (res st))).

Definition setHeader (k v : JsString) : Eff ServerState unit :=
  onRes (fun r =>
    mkResponse (headers r ++ [(k, v)]) (statusCode r) (written r) (ended r)).

Definition writeHead (code : Z) : Eff ServerState unit :=
  onRes (fun r =>
    mkResponse (headers r) (Some code) (written r) (ended r)).

Definition write (chunk : JsString) : Eff ServerState unit :=
  onRes (fun r =>
    mkResponse (headers r) (statusCode r) (written r ++ [chunk]) (ended r)).

Definition end_ : Eff ServerState unit :=
  onRes (fun r =>
    mkResponse (headers r) (statusCode r) (written r) true).

Definition continueConversationAsync
  (appId : option JsString) (ref msg : JsValue) : Eff ServerState unit :=
  fun st => (Normal tt, mkServer (calls st ++ [mkCall appId ref msg]) (res st)).

(** [for (const x of xs) body]. *)
Fixpoint forEach {S A} (xs : list A) (body : A -> Eff S unit) : Eff S unit :=
  match xs with
  | [] => ret tt
  | x :: rest => body x ;; forEach rest body
  end.

(** [Object.values] of the registry object. *)
Definition Object_values (o : list (JsString * JsValue)) : list JsValue :=
  map snd o.

Definition isHighSurrogate (c : N) : bool :=
  ((55296 <=? c) && (c <=? 56319))%N.
Definition isLowSurrogate (c : N) : bool :=
  ((56320 <=? c) && (c <=? 57343))%N.

(** The string iterator: one string per code point, a surrogate pair
    staying together. *)
Fixpoint codePoints (s : JsString) : list JsString :=
  match s with
  | [] => []
  | c :: s1 =>
      match s1 with
      | d :: s2 =>
          if isHighSurrogate c && isLowSurrogate d
          then [c; d] :: codePoints s2
          else [c] :: codePoints s1
      | [] => [[c]]
      end
  end.

(** What [for ... of] iterates over: the elements of an array, the code
    points of a string; nothing else among the modelled values is
    iterable.  The message of the TypeError is the engine's and names
    the expression; it is kept short here. *)
Definition iterate (v : JsValue) : Completion (list JsValue) :=
  match v with
  | JArr items => Normal items
  | JStr s => Normal (map JStr (codePoints s))
  | _ => Throw (TypeError (u "object is not iterable"))
  end.

Section Routes.

(** [process.env.MicrosoftAppId] and the module's
    [conversationReferences]. *)
Variable MicrosoftAppId : option JsString.
Variable conversationReferences : list (JsString * JsValue).

Definition respondHtml (text : JsString) : Eff ServerState unit :=
  setHeader (u "Content-Type") (u "text/html") ;;
  writeHead 200 ;;
  write text ;;
  end_.

(** [server.get('/api/notify', ...)]. *)
Definition getNotify : Eff ServerState unit :=
  forEach (Object_values conversationReferences)
    (fun conversationReference =>
       continueConversationAsync MicrosoftAppId conversationReference
         (str "proactive hello")) ;;
  respondHtml
    (u "<html><body><h1>Proactive messages have been sent.</h1></body></html>").

(** [server.post('/api/notify', ...)], on the parsed request body. *)
Definition postNotify (body : JsValue) : Eff ServerState unit :=
  msgs <- liftC (iterate body) ;;
  forEach msgs
    (fun msg =>
       forEach (Object_values conversationReferences)
         (fun conversationReference =>
            continueConversationAsync MicrosoftAppId conversationReference
              msg)) ;;
  respondHtml (u "Proactive messages have been sent.").

End Routes.

End Server.

(* ===================================================================== *)
(** * Further vocabulary *)
(* ===================================================================== *)

Module SpecMore.
Import Js Dialog Db.

(** [card.actions[0].data.type]: the discriminant a card's submit action
    puts into the payload. *)
Definition submitType (card : JsValue) : JsValue :=
  match card with
  | JObj ps =>
      match lookupProp ps (u "actions") with
      | JArr (JObj action :: _) =>
          match lookupProp action (u "data") with
          | JObj d => lookupProp d (u "type")
          | _ => JUndefined
          end
      | _ => JUndefined
      end
  | _ => JUndefined
  end.

(** The two console lines of [addConversationReference]. *)
Definition twoLines (reference : JsValue) : list (list Bot.LogArg) :=
  [[Bot.LogText (u "logging the conversation reference")];
   [Bot.LogValue reference]].

(** A stand-in for the SDK's [getConversationReference], for examples:
    the conversation and the channel of the activity. *)
Definition referenceOf (activity : JsValue) : JsValue :=
  match activity with
  | JObj ps =>
      JObj [(u "conversation", lookupProp ps (u "conversation"));
            (u "channelId", lookupProp ps (u "channelId"))]
  | _ => JObj [(u "conversation", JUndefined); (u "channelId", JUndefined)]
  end.

Definition messageFrom (conversationId : string) : JsValue :=
  JObj [prop "type" (str "message");
        prop "channelId" (str "emulator");
        prop "conversation" (JObj [prop "id" (str conversationId)])].

(** A stand-in for axios, for examples: the network is the list of the
    requests made; the agent at [http://agent] answers, every other
    address is unreachable. *)
#[export] Instance mockAxios : Agent.Axios := {
  Agent.NET := list (JsString * Agent.AxiosRequestConfig);
  Agent.axios_get := fun url config requests =>
    (if str_eqb url (u "http://agent/message")
     then Normal (Agent.mkAxiosResponse (JObj [prop "ok" (JBool true)]))
     else Throw (mkError (u "AxiosError") (Some (u "ECONNREFUSED"))
                   (u "connect ECONNREFUSED")),
     requests ++ [(url, config)]);
  Agent.isAxiosError := fun e => str_eqb (name e) (u "AxiosError")
}.

Definition sampleRequest : Agent.AgentRequest :=
  Agent.mkRequest (u "conv-1") (u "SPRINT-123") (u "BOARD-456")
    (u "Test Sprint") (u "TS").

(** The error [store] throws on an underlying error [e0]. *)
Definition wrapped (p : JsString) (e0 : JsError) : JsError :=
  Error (u "Failed to store data to " ++ p ++ u ": " ++ message e0).

Section Store.
Context {rt : Runtime}.

(** A file that was written can be accessed. *)
Definition writtenIsAccessible : Prop :=
  forall p d fs fs',
    writeFileSync p d fs = (Normal tt, fs') ->
    accessSync p fs' = Normal tt.

(** Writing at one path, with whatever outcome, leaves every file that
    could be read readable with the same content, unless its path names
    the file written.  [sameFile] is that relation of the file system at
    hand: it holds of a path and every other spelling of it, and of a
    link and what it points to. *)
Definition writeKeepsOthers (sameFile : JsString -> JsString -> Prop)
  : Prop :=
  forall p q d fs c fs' s,
    ~ sameFile p q ->
    writeFileSync p d fs = (c, fs') ->
    readFileSync q fs = Normal s ->
    readFileSync q fs' = Normal s.

(** Creating directories, with whatever outcome, leaves every readable
    file readable with the same content. *)
Definition mkdirKeepsFiles : Prop :=
  forall d fs c fs' q s,
    mkdirSync d fs = (c, fs') ->
    readFileSync q fs = Normal s ->
    readFileSync q fs' = Normal s.

End Store.

End SpecMore.

(* ===================================================================== *)
(** * Properties of the command dialog *)
(* ===================================================================== *)

Module DialogProps.
Import Js Dialog Spec.

(** Running the handlers: unfold the monad and the send. *)
Ltac run :=
  unfold bind, liftC, ret, sendText, sendActivity, after, textReply,
    cardReply; cbn [getProp fst snd activity sent value text].


Ltac split_comparisons :=
  repeat (match goal with
          | |- context [(?a <=? ?b)%N] => destruct (N.leb_spec a b)
          | |- context [(?a =? ?b)%N] => destruct (N.eqb_spec a b)
          end; cbn [andb orb negb]).


(** A safe integer is its value: the proof it carries is unique. *)
Lemma SafeInt_eq (a b : SafeInt) : intValue a = intValue b -> a = b.
Proof.
  destruct a as [x Hx], b as [y Hy]. cbn [intValue]. intros E. subst y.
  f_equal. apply Eqdep_dec.UIP_dec. apply bool_dec.
Qed.

Lemma toSafe_intValue (n : SafeInt) : toSafe (intValue n) = Some n.
Proof.
  unfold toSafe. destruct (bool_dec (isSafe (intValue n)) true) as [H|H].
  - f_equal. now apply SafeInt_eq.
  - contradiction H. apply intSafe.
Qed.

Lemma str_eqb_refl (a : JsString) : str_eqb a a = true.
Proof.
  induction a as [|x a IH]; simpl; [reflexivity|].
  now rewrite N.eqb_refl, IH.
Qed.

Lemma str_eqb_eq (a b : JsString) : str_eqb a b = true <-> a = b.
Proof.
  split.
  - revert b; induction a as [|x a IH]; intros [|y b]; simpl;
      try discriminate; [reflexivity|].
    intros H. apply andb_true_iff in H as [Hx Hab].
    apply N.eqb_eq in Hx. apply IH in Hab. now subst.
  - intros ->. apply str_eqb_refl.
Qed.

Lemma str_eqb_neq (a b : JsString) : a <> b -> str_eqb a b = false.
Proof.
  intros H. destruct (str_eqb a b) eqn:E; [|reflexivity].
  apply str_eqb_eq in E. contradiction.
Qed.

Lemma strictEqualsStr_eq (v : JsValue) (s : JsString) :
  strictEqualsStr v s = true <-> v = JStr s.
Proof.
  destruct v; simpl; try (split; [discriminate|intros H; discriminate H]).
  rewrite str_eqb_eq. split; [now intros ->|now intros [= ->]].
Qed.

Lemma strictEqualsStr_neq (v : JsValue) (s : JsString) :
  v <> JStr s -> strictEqualsStr v s = false.
Proof.
  intros H. destruct (strictEqualsStr v s) eqn:E; [|reflexivity].
  apply strictEqualsStr_eq in E. contradiction.
Qed.

Lemma startsWith_app (p s : JsString) : startsWith p (p ++ s) = true.
Proof.
  induction p as [|x p IH]; simpl; [reflexivity|].
  now rewrite N.eqb_refl.
Qed.

Lemma includes_app (pre x post : JsString) :
  includes (pre ++ x ++ post) x = true.
Proof.
  induction pre as [|c pre IH]; simpl.
  - destruct (x ++ post) eqn:E; simpl.
    + destruct x; [reflexivity|discriminate].
    + rewrite <- E, startsWith_app. reflexivity.
  - rewrite IH. apply orb_true_r.
Qed.

(** The two replies of the jiraInformation handler never coincide. *)
Lemma created_not_required (s b : JsString) :
  createdText s b <> requiredFieldsMessage.
Proof. unfold createdText. simpl. discriminate. Qed.

Lemma includes_intro (s pre x post : JsString) :
  s = pre ++ x ++ post -> includes s x = true.
Proof. intros ->. apply includes_app. Qed.

Lemma created_includes_sprintId (s b : JsString) :
  includes (createdText s b) s = true.
Proof.
  apply includes_intro with
    (pre := checkMark ++ u " **Notification Created Successfully!**"
            ++ nl ++ nl ++ u "**Sprint ID:** ")
    (post := nl ++ u "**Board ID:** " ++ b ++ nl).
  unfold createdText.
  repeat rewrite <- app_assoc. reflexivity.
Qed.

Lemma created_includes_boardId (s b : JsString) :
  includes (createdText s b) b = true.
Proof.
  apply includes_intro with
    (pre := checkMark ++ u " **Notification Created Successfully!**"
            ++ nl ++ nl ++ u "**Sprint ID:** " ++ s ++ nl
            ++ u "**Board ID:** ")
    (post := nl).
  unfold createdText.
  repeat rewrite <- app_assoc. reflexivity.
Qed.

Lemma joinAll_cons (sep : JsString) (x y : Completion JsString)
  (l : list (Completion JsString)) :
  joinAll sep (x :: y :: l) =
  match x with
  | Throw e => Throw e
  | Normal a =>
      match joinAll sep (y :: l) with
      | Throw e => Throw e
      | Normal b => Normal (a ++ sep ++ b)
      end
  end.
Proof. reflexivity. Qed.

(** Every error of a conversion to string is a TypeError. *)
Lemma joinAll_throws (sep : JsString) (l : list (Completion JsString))
  (e : JsError) :
  Forall (fun x => forall e', x = Throw e' -> name e' = u "TypeError") l ->
  joinAll sep l = Throw e -> name e = u "TypeError".
Proof.
  induction l as [|x l IH]; intros Hall H; [simpl in H; discriminate H|].
  inversion Hall as [|? ? Hx Hl]; subst.
  destruct l as [|y l'].
  - simpl in H. now apply Hx.
  - rewrite joinAll_cons in H. destruct x as [a|e'].
    + destruct (joinAll sep (y :: l')) as [t|e''] eqn:E;
        [discriminate H|].
      injection H as ->. now apply IH.
    + injection H as ->. now apply Hx.
Qed.

(** Induction on a value, with the hypothesis on every element of an
    array and every property of an object. *)
Lemma JsValue_nested_ind (P : JsValue -> Prop) :
  P JUndefined -> P JNull -> (forall b, P (JBool b)) ->
  (forall n, P (JNum n)) -> (forall s, P (JStr s)) ->
  (forall items, Forall P items -> P (JArr items)) ->
  (forall props, Forall (fun kv => P (snd kv)) props -> P (JObj props)) ->
  forall v, P v.
Proof.
  intros HU HN HB HZ HS HA HO. fix IH 1.
  intros [| |b|n|s|items|props].
  - exact HU.
  - exact HN.
  - apply HB.
  - apply HZ.
  - apply HS.
  - apply HA. induction items as [|x items IHl]; constructor;
      [apply IH|exact IHl].
  - apply HO. induction props as [|[k x] props IHl]; constructor;
      [apply IH|exact IHl].
Qed.

Lemma toString_throws (v : JsValue) :
  forall e, toString v = Throw e -> name e = u "TypeError".
Proof.
  induction v as [| |b|n|s|items IHitems|props _] using JsValue_nested_ind;
    intros e H.
  - simpl in H. discriminate H.
  - simpl in H. discriminate H.
  - destruct b; simpl in H; discriminate H.
  - simpl in H. discriminate H.
  - simpl in H. discriminate H.
  - cbn [toString] in H. apply joinAll_throws in H; [exact H|].
    clear H. induction IHitems as [|x items Hx _ IHl]; constructor.
    + intros e' H'. destruct x; try discriminate H'; exact (Hx _ H').
    + exact IHl.
  - cbn [toString] in H. destruct (hasOwn props (u "toString"));
      [|discriminate H].
    injection H as <-. reflexivity.
Qed.

Lemma created_throws (s b : JsValue) (e : JsError) :
  notificationCreatedMessage s b = Throw e -> name e = u "TypeError".
Proof.
  unfold notificationCreatedMessage. intros H.
  destruct (toString s) as [ts|e1] eqn:Es.
  - destruct (toString b) as [tb|e2] eqn:Eb; [discriminate H|].
    injection H as ->. exact (toString_throws _ _ Eb).
  - injection H as ->. exact (toString_throws _ _ Es).
Qed.

Lemma joinAll_normal (sep : JsString) (l : list (Completion JsString)) :
  (exists s, joinAll sep l = Normal s) <->
  Forall (fun x => exists a, x = Normal a) l.
Proof.
  induction l as [|x l IH].
  - split; [constructor|]. intros _. exists []. reflexivity.
  - destruct l as [|y l'].
    + cbn [joinAll]. split.
      * intros H. constructor; [exact H|constructor].
      * intros H. inversion H; subst. assumption.
    + rewrite joinAll_cons. split.
      * intros [s H]. destruct x as [a|e]; [|discriminate H].
        destruct (joinAll sep (y :: l')) as [b|e] eqn:E; [|discriminate H].
        constructor; [now exists a|]. apply IH. now exists b.
      * intros H. inversion H as [|? ? [a ->] Hl]; subst.
        apply IH in Hl as [b ->]. eexists. reflexivity.
Qed.

(** The values [toString] converts are the [convertible] ones. *)
Lemma toString_convertible (v : JsValue) :
  convertible v = true <-> exists s, toString v = Normal s.
Proof.
  induction v as [| |b|n|s|items IHitems|props _] using JsValue_nested_ind.
  - split; [intros _; eexists; reflexivity|reflexivity].
  - split; [intros _; eexists; reflexivity|reflexivity].
  - split; [intros _; destruct b; eexists; reflexivity|reflexivity].
  - split; [intros _; eexists; reflexivity|reflexivity].
  - split; [intros _; eexists; reflexivity|reflexivity].
  - cbn [convertible toString]. rewrite joinAll_normal.
    rewrite forallb_forall, Forall_map, !Forall_forall.
    rewrite Forall_forall in IHitems.
    split; intros H x Hx.
    + specialize (H x Hx). apply (IHitems x Hx) in H.
      destruct x; try exact H; eexists; reflexivity.
    + specialize (H x Hx). apply (IHitems x Hx).
      destruct x; try exact H; eexists; reflexivity.
  - cbn [convertible toString].
    destruct (hasOwn props (u "toString")); cbn [negb].
    + split; [discriminate|]. intros [s H]. discriminate H.
    + split; [intros _; eexists; reflexivity|reflexivity].
Qed.

Lemma toString_throws_iff (v : JsValue) :
  convertible v = false <-> exists e, toString v = Throw e.
Proof.
  pose proof (toString_convertible v) as H.
  destruct (convertible v); destruct (toString v) as [s|e].
  - split; [discriminate|]. intros [e H']. discriminate H'.
  - destruct (proj1 H eq_refl) as [s H']. discriminate H'.
  - assert (true = false) by (symmetry; apply H; now exists s).
    discriminate.
  - split; [intros _; now exists e|reflexivity].
Qed.

(** The success message is evaluated without a throw exactly when both
    values are convertible. *)
Lemma created_throws_iff (s b : JsValue) :
  convertible s && convertible b = false <->
  exists e, notificationCreatedMessage s b = Throw e.
Proof.
  unfold notificationCreatedMessage.
  pose proof (toString_throws_iff s) as Hs.
  pose proof (toString_throws_iff b) as Hb.
  destruct (toString s) as [ts|es].
  - assert (Es : convertible s = true).
    { destruct (convertible s); [reflexivity|].
      destruct (proj1 Hs eq_refl) as [e H]. discriminate H. }
    rewrite Es. cbn [andb].
    destruct (toString b) as [tb|eb].
    + split.
      * intros H. apply Hb in H as [e H]. discriminate H.
      * intros [e H]. discriminate H.
    + split; [intros _; now exists eb|].
      intros _. apply Hb. now exists eb.
  - assert (Es : convertible s = false) by (apply Hs; now exists es).
    rewrite Es. cbn [andb]. split; [intros _; now exists es|reflexivity].
Qed.

Lemma getProp_truthy (v : JsValue) (k : JsString) :
  truthy v = true -> exists x, getProp v k = Normal x.
Proof.
  destruct v; simpl; try discriminate; intros _; eexists; reflexivity.
Qed.

(** The reply of the jiraInformation handler: the required-fields error,
    or the success message once its template literal is evaluated. *)
Lemma jira_run (props : list (JsString * JsValue)) (c : TurnContext) :
  handleJiraInformationSubmission (JObj props) c =
  delivered c
    (if negb (truthy (lookupProp props (u "sprintId")))
        || negb (truthy (lookupProp props (u "boardId")))
     then Normal (textReply requiredFieldsMessage)
     else
       match notificationCreatedMessage (lookupProp props (u "sprintId"))
               (lookupProp props (u "boardId")) with
       | Normal response => Normal (textReply response)
       | Throw e => Throw e
       end).
Proof.
  unfold handleJiraInformationSubmission. run.
  destruct (negb _ || negb _); [reflexivity|].
  destruct (notificationCreatedMessage _ _); reflexivity.
Qed.

Lemma cancel_run (props : list (JsString * JsValue)) (c : TurnContext) :
  handleCancelNotificationSubmission (JObj props) c =
  (Normal tt,
   after c (textReply
     (if strictEqualsStr (lookupProp props (u "choice")) (u "yes")
      then cancelledMessage
      else if strictEqualsStr (lookupProp props (u "choice")) (u "no")
      then notCancelledMessage
      else []))).
Proof. unfold handleCancelNotificationSubmission. run. reflexivity. Qed.

Lemma prompt_run (props : list (JsString * JsValue)) (c : TurnContext) :
  handlePromptSubmission (JObj props) c =
  (Normal tt, after c (textReply promptSentMessage)).
Proof. unfold handlePromptSubmission. run. reflexivity. Qed.

(** A primitive or an array has no [type] property: the default branch. *)
Lemma submission_not_object (c : TurnContext) :
  truthy (value (activity c)) = true ->
  (forall props, value (activity c) <> JObj props) ->
  handleCardSubmission c = (Normal tt, after c (textReply thankYouMessage)).
Proof.
  intros Ht Hn. unfold handleCardSubmission. run.
  destruct (value (activity c)) eqn:E; simpl in Ht; try discriminate;
    try reflexivity.
  exfalso. eapply Hn. reflexivity.
Qed.

Lemma submission_reply (v : JsValue) :
  truthy v = true ->
  exists o : Completion Outgoing, forall c,
    value (activity c) = v ->
    handleCardSubmission c = delivered c o.
Proof.
  intros Ht.
  destruct v as [| |b|n|s|items|props]; simpl in Ht; try discriminate;
    try (exists (Normal (textReply thankYouMessage)); intros c E;
         unfold handleCardSubmission; rewrite E; run; reflexivity).
  destruct (strictEqualsStr (lookupProp props (u "type"))
              (u "jiraInformation")) eqn:E1.
  { eexists; intros c E. unfold handleCardSubmission. rewrite E.
    unfold bind at 1. unfold liftC at 1. cbn [getProp]. rewrite E1.
    apply jira_run. }
  destruct (strictEqualsStr (lookupProp props (u "type"))
              (u "cancelNotification")) eqn:E2.
  { eexists (Normal _); intros c E. unfold handleCardSubmission. rewrite E.
    unfold bind at 1. unfold liftC at 1. cbn [getProp]. rewrite E1, E2.
    apply cancel_run. }
  destruct (strictEqualsStr (lookupProp props (u "type"))
              (u "prompt")) eqn:E3.
  { eexists (Normal _); intros c E. unfold handleCardSubmission. rewrite E.
    unfold bind at 1. unfold liftC at 1. cbn [getProp]. rewrite E1, E2, E3.
    apply prompt_run. }
  exists (Normal (textReply thankYouMessage)); intros c E.
  unfold handleCardSubmission. rewrite E.
  unfold bind at 1. unfold liftC at 1. cbn [getProp]. rewrite E1, E2, E3.
  reflexivity.
Qed.

(** With a payload the step is the submission handler followed by
    [endDialog]. *)
Lemma step_with_payload (c : TurnContext) :
  truthy (value (activity c)) = true ->
  processUserInputStep c = bind handleCardSubmission (fun _ => endDialog) c.
Proof. intros Ht. unfold processUserInputStep. now rewrite Ht. Qed.

Lemma after_inj (c : TurnContext) (a b : Outgoing) :
  after c a = after c b -> a = b.
Proof.
  unfold after. intros H. injection H as H.
  apply app_inv_head in H. now injection H.
Qed.

(** C1 (as amended).  A jiraInformation submission is answered with the
    required-fields error exactly when [sprintId] or [boardId] is falsy
    (absent, [null], the empty string, [0], [false]); no trimming takes
    place.  Otherwise the two values are converted to strings, [sprintId]
    first.  When both conversions succeed the answer is the success
    message, which contains both converted values, a string value being
    converted to itself.  When a conversion throws, its error leaves the
    handler and nothing is sent; this happens exactly when one of the two
    values is an object with an own [toString] property or an array that
    holds such an object. *)
Theorem C1_jira_required_fields
  (props : list (JsString * JsValue)) (c : TurnContext) :
  let sprintId := lookupProp props (u "sprintId") in
  let boardId := lookupProp props (u "boardId") in
  let run := handleJiraInformationSubmission (JObj props) c in
  (run = (Normal tt, after c (textReply requiredFieldsMessage)) <->
     truthy sprintId = false \/ truthy boardId = false) /\
  (truthy sprintId = true -> truthy boardId = true ->
     (forall s b,
        toString sprintId = Normal s -> toString boardId = Normal b ->
        run = (Normal tt, after c (textReply (createdText s b))) /\
        includes (createdText s b) s = true /\
        includes (createdText s b) b = true) /\
     (forall e, toString sprintId = Throw e -> run = (Throw e, c)) /\
     (forall s e,
        toString sprintId = Normal s -> toString boardId = Throw e ->
        run = (Throw e, c))) /\
  (forall x y,
     sprintId = JStr x -> boardId = JStr y -> x <> [] -> y <> [] ->
     run = (Normal tt, after c (textReply (createdText x y)))) /\
  (truthy sprintId = true -> truthy boardId = true ->
     ((exists e, run = (Throw e, c)) <->
      convertible sprintId && convertible boardId = false)).
Proof.
  intros sprintId boardId run.
  assert (Hrun : run =
    delivered c
      (if negb (truthy sprintId) || negb (truthy boardId)
       then Normal (textReply requiredFieldsMessage)
       else
         match notificationCreatedMessage sprintId boardId with
         | Normal response => Normal (textReply response)
         | Throw e => Throw e
         end)) by apply jira_run.
  assert (Hboth : truthy sprintId = true -> truthy boardId = true ->
    (forall s b,
       toString sprintId = Normal s -> toString boardId = Normal b ->
       run = (Normal tt, after c (textReply (createdText s b)))) /\
    (forall e, toString sprintId = Throw e -> run = (Throw e, c)) /\
    (forall s e,
       toString sprintId = Normal s -> toString boardId = Throw e ->
       run = (Throw e, c))).
  { intros Hs Hb. rewrite Hrun, Hs, Hb. cbn [negb orb].
    unfold notificationCreatedMessage.
    split; [|split].
    - intros s b -> ->. reflexivity.
    - intros e ->. reflexivity.
    - intros s e -> ->. reflexivity. }
  split; [|split; [|split]].
  - split.
    + intros H.
      destruct (truthy sprintId) eqn:Hs; [|now left].
      destruct (truthy boardId) eqn:Hb; [|now right].
      exfalso. destruct (Hboth eq_refl eq_refl) as [Hok [Ht1 Ht2]].
      destruct (toString sprintId) as [s|e] eqn:Es.
      * destruct (toString boardId) as [b|e] eqn:Eb.
        -- rewrite (Hok s b eq_refl eq_refl) in H.
           apply (f_equal snd) in H. cbn [snd] in H.
           apply after_inj in H. unfold textReply in H.
           apply (created_not_required s b). congruence.
        -- rewrite (Ht2 s e eq_refl eq_refl) in H. discriminate H.
      * rewrite (Ht1 e eq_refl) in H. discriminate H.
    + intros H. rewrite Hrun.
      destruct H as [H|H]; rewrite H; cbn [negb orb];
        [|rewrite orb_true_r]; reflexivity.
  - intros Hs Hb. destruct (Hboth Hs Hb) as [Hok [Ht1 Ht2]].
    split; [|split; [exact Ht1|exact Ht2]].
    intros s b Es Eb. split; [exact (Hok s b Es Eb)|].
    split; [apply created_includes_sprintId|apply created_includes_boardId].
  - intros x y Ex Ey Hx Hy.
    assert (Hs : truthy sprintId = true)
      by (rewrite Ex; destruct x; [contradiction|reflexivity]).
    assert (Hb : truthy boardId = true)
      by (rewrite Ey; destruct y; [contradiction|reflexivity]).
    destruct (Hboth Hs Hb) as [Hok _]. apply Hok.
    + rewrite Ex. reflexivity.
    + rewrite Ey. reflexivity.
  - intros Hs Hb. rewrite created_throws_iff.
    rewrite Hrun, Hs, Hb. cbn [negb orb].
    destruct (notificationCreatedMessage sprintId boardId) as [r|e].
    + split; intros [e H]; discriminate H.
    + split; intros _; exists e; reflexivity.
Qed.

Lemma C1_jira_required_fields_witness :
  let props := [prop "type" (str "jiraInformation");
                prop "sprintId" (str "SPRINT-123");
                prop "boardId" (str "BOARD-456")] in
  let c := turn None (JObj props) in
  handleJiraInformationSubmission (JObj props) c
    = (Normal tt,
       after c (textReply (createdText (u "SPRINT-123") (u "BOARD-456")))) /\
  includes (createdText (u "SPRINT-123") (u "BOARD-456")) (u "SPRINT-123")
    = true /\
  includes (createdText (u "SPRINT-123") (u "BOARD-456")) (u "BOARD-456")
    = true.
Proof.
  intros props c.
  pose proof (C1_jira_required_fields props c) as H. cbv zeta in H.
  destruct H as [_ [H _]].
  destruct (H eq_refl eq_refl) as [Hok _].
  exact (Hok (u "SPRINT-123") (u "BOARD-456") eq_refl eq_refl).
Defined.

(** C1 as the specification states it fails: a whitespace-only
    [sprintId] is "blank after trimming", so that the specification
    requires the error; yet the handler answers with the success
    message. *)
Lemma C1_whitespace_only_accepted :
  let props := [prop "type" (str "jiraInformation");
                prop "sprintId" (str "   ");
                prop "boardId" (str "BOARD-456")] in
  let c := turn None (JObj props) in
  spec_requiresFields (lookupProp props (u "sprintId"))
    (lookupProp props (u "boardId")) = true /\
  handleJiraInformationSubmission (JObj props) c
    <> (Normal tt, after c (textReply requiredFieldsMessage)) /\
  handleJiraInformationSubmission (JObj props) c
    = (Normal tt,
       after c (textReply (createdText (u "   ") (u "BOARD-456")))).
Proof.
  split; [reflexivity|]. split; [|reflexivity].
  vm_compute. discriminate.
Qed.



(** C6.  A submission whose [type] is none of ['jiraInformation'],
    ['prompt'], ['cancelNotification'] (another string, no string at all,
    or absent) is answered with exactly "Thank you for your
    submission!". *)
Theorem C6_unknown_type_acknowledged (c : TurnContext) (ty : JsValue) :
  getProp (value (activity c)) (u "type") = Normal ty ->
  ty <> JStr (u "jiraInformation") ->
  ty <> JStr (u "prompt") ->
  ty <> JStr (u "cancelNotification") ->
  handleCardSubmission c
    = (Normal tt, after c (textReply (u "Thank you for your submission!"))).
Proof.
  intros Hget H1 H2 H3. unfold handleCardSubmission.
  unfold bind, liftC. rewrite Hget.
  rewrite (strictEqualsStr_neq _ _ H1), (strictEqualsStr_neq _ _ H2),
    (strictEqualsStr_neq _ _ H3).
  reflexivity.
Qed.

Lemma C6_unknown_type_acknowledged_witness :
  let data := JObj [prop "type" (str "unknownType");
                    prop "someData" (str "test")] in
  handleCardSubmission (turn None data)
    = (Normal tt,
       after (turn None data)
         (textReply (u "Thank you for your submission!"))).
Proof.
  apply (C6_unknown_type_acknowledged
           (turn None (JObj [prop "type" (str "unknownType");
                             prop "someData" (str "test")]))
           (str "unknownType")).
  - reflexivity.
  - vm_compute; discriminate.
  - vm_compute; discriminate.
  - vm_compute; discriminate.
Defined.

(** The step with a payload, in terms of what the handler delivers. *)
Lemma step_delivered (c : TurnContext) (o : Completion Outgoing) :
  truthy (value (activity c)) = true ->
  handleCardSubmission c = delivered c o ->
  processUserInputStep c = stepped c o.
Proof.
  intros Ht H. rewrite step_with_payload by exact Ht.
  unfold bind. rewrite H. destruct o; reflexivity.
Qed.

(** A jiraInformation submission with both fields given is answered by
    the evaluation of the success message. *)
Lemma jira_given (c : TurnContext) (s b : JsValue) :
  jiraFieldsGiven (value (activity c)) = Some (s, b) ->
  truthy (value (activity c)) = true /\
  handleCardSubmission c =
  delivered c
    match notificationCreatedMessage s b with
    | Normal response => Normal (textReply response)
    | Throw e => Throw e
    end.
Proof.
  unfold jiraFieldsGiven, handleCardSubmission.
  destruct (value (activity c)) as [| |x|n|x|items|props];
    try discriminate.
  cbv zeta.
  destruct (strictEqualsStr (lookupProp props (u "type"))
              (u "jiraInformation")) eqn:E1; [|discriminate].
  destruct (truthy (lookupProp props (u "sprintId"))) eqn:Hs;
    [|discriminate].
  destruct (truthy (lookupProp props (u "boardId"))) eqn:Hb;
    [|discriminate].
  cbn [andb]. intros [= <- <-]. split; [reflexivity|].
  unfold bind at 1. unfold liftC at 1. cbn [getProp]. rewrite E1.
  rewrite jira_run, Hs, Hb. reflexivity.
Qed.

(** Every other payload is answered with one activity. *)
Lemma other_payload (c : TurnContext) :
  truthy (value (activity c)) = true ->
  jiraFieldsGiven (value (activity c)) = None ->
  exists a, handleCardSubmission c = (Normal tt, after c a).
Proof.
  intros Ht Hn. unfold handleCardSubmission.
  destruct (value (activity c)) as [| |x|n|x|items|props];
    try discriminate Ht;
    try (eexists; run; reflexivity).
  unfold jiraFieldsGiven in Hn. cbv zeta in Hn.
  unfold bind at 1. unfold liftC at 1. cbn [getProp].
  destruct (strictEqualsStr (lookupProp props (u "type"))
              (u "jiraInformation")) eqn:E1.
  - rewrite jira_run.
    destruct (truthy (lookupProp props (u "sprintId")));
      [|eexists; reflexivity].
    destruct (truthy (lookupProp props (u "boardId")));
      [discriminate Hn|eexists; reflexivity].
  - destruct (strictEqualsStr (lookupProp props (u "type"))
                (u "cancelNotification")).
    { rewrite cancel_run. eexists; reflexivity. }
    destruct (strictEqualsStr (lookupProp props (u "type")) (u "prompt")).
    { rewrite prompt_run. eexists; reflexivity. }
    eexists; reflexivity.
Qed.

(** Without a payload the step answers the text with one activity. *)
Lemma text_turn (c : TurnContext) :
  truthy (value (activity c)) = false ->
  exists a,
    processUserInputStep c = (Normal (mkResult complete), after c a).
Proof.
  intros Ht. unfold processUserInputStep. rewrite Ht.
  destruct (isCommand _ "help"); [eexists; reflexivity|].
  destruct (isCommand _ "configure"); [eexists; reflexivity|].
  destruct (isCommand _ "prompt"); [eexists; reflexivity|].
  destruct (isCommand _ "cancel"); eexists; reflexivity.
Qed.

Lemma jiraFieldsGiven_truthy (v s b : JsValue) :
  jiraFieldsGiven v = Some (s, b) -> truthy v = true.
Proof. destruct v; try discriminate. reflexivity. Qed.

(** C7.  When the activity carries a payload (a truthy [value], as every
    object is), the step is exactly the card-submission handler followed
    by [endDialog], and the text plays no part: whatever the text, the
    handler delivers the same thing, which is all the step does before
    it ends the dialog. *)
Theorem C7_payload_takes_precedence
  (t : option JsString) (v : JsValue) (sent0 : list Outgoing) :
  truthy v = true ->
  let c := mkContext (mkActivity t v) sent0 in
  processUserInputStep c = bind handleCardSubmission (fun _ => endDialog) c /\
  exists o : Completion Outgoing,
    forall t',
      let c' := mkContext (mkActivity t' v) sent0 in
      handleCardSubmission c' = delivered c' o /\
      processUserInputStep c' = stepped c' o.
Proof.
  intros Ht c. split; [now apply step_with_payload|].
  destruct (submission_reply _ Ht) as [o Ho].
  exists o. intros t' c'.
  assert (H : handleCardSubmission c' = delivered c' o)
    by (apply Ho; reflexivity).
  split; [exact H|]. apply step_delivered; [exact Ht|exact H].
Qed.

Lemma C7_payload_takes_precedence_witness :
  let v := JObj [prop "type" (str "cancelNotification");
                 prop "choice" (str "no")] in
  processUserInputStep (turn (Some (u "configure")) v)
    = (Normal (mkResult complete),
       after (turn (Some (u "configure")) v)
         (textReply notCancelledMessage)) /\
  processUserInputStep (turn None v)
    = (Normal (mkResult complete),
       after (turn None v) (textReply notCancelledMessage)).
Proof.
  intros v.
  destruct (C7_payload_takes_precedence (Some (u "help")) v []
              eq_refl) as [_ [o Hall]].
  assert (Ho : o = Normal (textReply notCancelledMessage)).
  { destruct (Hall None) as [Ha _]. destruct o as [a|e].
    - apply (f_equal snd) in Ha. cbn [snd delivered] in Ha.
      symmetry in Ha. apply after_inj in Ha. now rewrite Ha.
    - discriminate Ha. }
  subst o. split.
  - exact (proj2 (Hall (Some (u "configure")))).
  - exact (proj2 (Hall None)).
Defined.

(** C9 (as amended).  The step either completes with status [complete]
    and adds exactly one activity to those sent, after the ones already
    there, or throws and leaves the context as it was.  It throws in one
    case only, and always in that case: the payload is a jiraInformation
    submission in which both fields are given and the evaluation of the
    success message throws, which it does with a TypeError, exactly when
    one of the two fields is an object with an own [toString] property or
    an array that holds such an object. *)
Theorem C9_one_message_per_turn (c : TurnContext) :
  (exists o : Completion Outgoing,
     processUserInputStep c = stepped c o /\
     forall e,
       o = Throw e ->
       name e = u "TypeError" /\
       exists s b,
         jiraFieldsGiven (value (activity c)) = Some (s, b) /\
         notificationCreatedMessage s b = Throw e) /\
  (forall s b e,
     jiraFieldsGiven (value (activity c)) = Some (s, b) ->
     notificationCreatedMessage s b = Throw e ->
     processUserInputStep c = (Throw e, c)) /\
  (forall s b response,
     jiraFieldsGiven (value (activity c)) = Some (s, b) ->
     notificationCreatedMessage s b = Normal response ->
     processUserInputStep c
       = (Normal (mkResult complete), after c (textReply response))) /\
  (forall s b,
     jiraFieldsGiven (value (activity c)) = Some (s, b) ->
     ((exists e, processUserInputStep c = (Throw e, c)) <->
      convertible s && convertible b = false)).
Proof.
  split; [|split; [|split]].
  - destruct (jiraFieldsGiven (value (activity c))) as [[s b]|] eqn:Eg.
    + destruct (jira_given c s b Eg) as [Ht Hrun].
      eexists. split; [exact (step_delivered _ _ Ht Hrun)|].
      intros e He.
      destruct (notificationCreatedMessage s b) as [r|e'] eqn:En;
        [discriminate He|].
      injection He as ->.
      split; [exact (created_throws _ _ _ En)|].
      exists s, b. split; [reflexivity|exact En].
    + destruct (truthy (value (activity c))) eqn:Ht.
      * destruct (other_payload c Ht Eg) as [a Ha].
        exists (Normal a). split; [|intros e He; discriminate He].
        now apply step_delivered.
      * destruct (text_turn c Ht) as [a Ha].
        exists (Normal a). split; [exact Ha|intros e He; discriminate He].
  - intros s b e Eg En. destruct (jira_given c s b Eg) as [Ht Hrun].
    rewrite En in Hrun. exact (step_delivered _ _ Ht Hrun).
  - intros s b r Eg En. destruct (jira_given c s b Eg) as [Ht Hrun].
    rewrite En in Hrun. exact (step_delivered _ _ Ht Hrun).
  - intros s b Eg. destruct (jira_given c s b Eg) as [Ht Hrun].
    rewrite created_throws_iff.
    rewrite (step_delivered _ _ Ht Hrun).
    destruct (notificationCreatedMessage s b) as [r|e].
    + split; intros [e H]; discriminate H.
    + split; intros _; exists e; reflexivity.
Qed.

(** C9 as the specification states it fails: on a jiraInformation
    submission whose [sprintId] is an object with a [toString] property,
    the step sends nothing and throws. *)
Lemma C9_unprintable_field_throws :
  let v := JObj [prop "type" (str "jiraInformation");
                 prop "sprintId" (JObj [prop "toString" (JNum (int 1))]);
                 prop "boardId" (str "BOARD-456")] in
  let c := turn None v in
  (forall a,
     processUserInputStep c <> (Normal (mkResult complete), after c a)) /\
  processUserInputStep c
    = (Throw (TypeError (u "Cannot convert object to primitive value")), c).
Proof.
  intros v c.
  assert (H : processUserInputStep c
    = (Throw (TypeError (u "Cannot convert object to primitive value")), c))
    by reflexivity.
  split; [|exact H].
  intros a Ha. rewrite H in Ha. discriminate Ha.
Qed.

(** ** Normalisation of text commands *)


Lemma lowerUnit_idem (c : N) : lowerUnit (lowerUnit c) = lowerUnit c.
Proof.
  unfold lowerUnit at 2 3.
  split_comparisons; unfold lowerUnit; split_comparisons;
    try reflexivity; lia.
Qed.

Lemma toLowerCase_idem (s : JsString) :
  toLowerCase (toLowerCase s) = toLowerCase s.
Proof.
  unfold toLowerCase. rewrite map_map.
  apply map_ext. apply lowerUnit_idem.
Qed.











Lemma isCommand_eq (m : option JsString) (cmd : string) :
  isCommand m cmd = true <-> m = Some (u cmd).
Proof.
  destruct m as [m|]; simpl.
  - rewrite str_eqb_eq. split; [now intros ->|now intros [= ->]].
  - split; discriminate.
Qed.

Lemma isCommand_neq (m : option JsString) (cmd : string) :
  m <> Some (u cmd) -> isCommand m cmd = false.
Proof.
  intros H. destruct (isCommand m cmd) eqn:E; [|reflexivity].
  apply isCommand_eq in E. contradiction.
Qed.

(** The step on a turn without payload, by the normalised text. *)
Lemma text_dispatch (c : TurnContext) :
  truthy (value (activity c)) = false ->
  let m := normalized (text (activity c)) in
  exists a,
    processUserInputStep c = (Normal (mkResult complete), after c a) /\
    (m = Some (u "help") -> a = textReply helpMessage) /\
    (m = Some (u "configure") -> a = cardReply jiraInformationCard) /\
    (m = Some (u "prompt") -> a = cardReply promptToAgentCard) /\
    (m = Some (u "cancel") -> a = cardReply cancelNotificationCard) /\
    (m <> Some (u "configure") -> m <> Some (u "prompt") ->
     m <> Some (u "cancel") -> a = textReply helpMessage).
Proof.
  intros Hv m. unfold processUserInputStep. rewrite Hv.
  fold (normalized (text (activity c))). fold m.
  destruct (isCommand m "help") eqn:E0.
  { apply isCommand_eq in E0. exists (textReply helpMessage).
    split; [reflexivity|]. rewrite E0.
    repeat split; try reflexivity; intros H; discriminate H. }
  destruct (isCommand m "configure") eqn:E1.
  { apply isCommand_eq in E1. exists (cardReply jiraInformationCard).
    split; [reflexivity|]. rewrite E1.
    repeat split; try reflexivity; try (intros H; discriminate H).
    intros H; now contradiction H. }
  destruct (isCommand m "prompt") eqn:E2.
  { apply isCommand_eq in E2. exists (cardReply promptToAgentCard).
    split; [reflexivity|]. rewrite E2.
    repeat split; try reflexivity; try (intros H; discriminate H).
    intros _ H; now contradiction H. }
  destruct (isCommand m "cancel") eqn:E3.
  { apply isCommand_eq in E3. exists (cardReply cancelNotificationCard).
    split; [reflexivity|]. rewrite E3.
    repeat split; try reflexivity; try (intros H; discriminate H).
    intros _ _ H; now contradiction H. }
  exists (textReply helpMessage). split; [reflexivity|].
  repeat split; try reflexivity;
    intros H; rewrite H in *; discriminate.
Qed.




(** The lower-cased discriminants are pairwise distinct, so a variant of
    one of them is none of them. *)
Lemma variant_not_type (t k : JsString) :
  In k submissionTypes -> variantOf t k -> ~ In t submissionTypes.
Proof.
  intros Hk [Hl Hne] Ht.
  unfold submissionTypes in Hk, Ht. simpl in Hk, Ht.
  destruct Hk as [<-|[<-|[<-|[]]]];
    destruct Ht as [<-|[<-|[<-|[]]]];
    try (now contradiction Hne); vm_compute in Hl; discriminate Hl.
Qed.

Lemma variant_not_choice (t k : JsString) :
  In k cancelChoices -> variantOf t k -> ~ In t cancelChoices.
Proof.
  intros Hk [Hl Hne] Ht.
  unfold cancelChoices in Hk, Ht. simpl in Hk, Ht.
  destruct Hk as [<-|[<-|[]]];
    destruct Ht as [<-|[<-|[]]];
    try (now contradiction Hne); vm_compute in Hl; discriminate Hl.
Qed.

(** C10.  Payloads are dispatched on the strings as they are: a [type]
    that is one of the three discriminants only up to letter case or
    surrounding white space gets the generic acknowledgement, and a
    [choice] that is ["yes"] or ["no"] only up to case or white space gets
    the empty reply; a text command with the same kind of variation is
    still recognised. *)
Theorem C10_payload_dispatch_is_exact :
  (forall (c : TurnContext) (t k : JsString),
     getProp (value (activity c)) (u "type") = Normal (JStr t) ->
     In k submissionTypes -> variantOf t k ->
     handleCardSubmission c
       = (Normal tt, after c (textReply thankYouMessage))) /\
  (forall (data : JsValue) (ch k : JsString) (c : TurnContext),
     getProp data (u "choice") = Normal (JStr ch) ->
     In k cancelChoices -> variantOf ch k ->
     handleCancelNotificationSubmission data c
       = (Normal tt, after c (textReply []))) /\
  (forall (s : JsString) (c : TurnContext),
     truthy (value (activity c)) = false ->
     text (activity c) = Some s ->
     trim (toLowerCase s) = u "cancel" ->
     processUserInputStep c
       = (Normal (mkResult complete),
          after c (cardReply cancelNotificationCard))).
Proof.
  split; [|split].
  - intros c t k Hget Hk Hvar.
    pose proof (variant_not_type t k Hk Hvar) as Hnot.
    unfold handleCardSubmission, bind, liftC. rewrite Hget.
    rewrite !strictEqualsStr_neq; [reflexivity| | |];
      intros [= E]; apply Hnot; rewrite E; simpl; auto.
  - intros data ch k c Hget Hk Hvar.
    pose proof (variant_not_choice ch k Hk Hvar) as Hnot.
    unfold handleCancelNotificationSubmission, bind, liftC. rewrite Hget.
    rewrite !strictEqualsStr_neq; [reflexivity| |];
      intros [= E]; apply Hnot; rewrite E; simpl; auto.
  - intros s c Hv Ht Hn.
    destruct (text_dispatch c Hv) as [a [Hrun [_ [_ [_ [H3 _]]]]]].
    rewrite Hrun, H3; [reflexivity|].
    rewrite Ht. unfold normalized, option_map. now rewrite Hn.
Qed.

Lemma C10_payload_dispatch_is_exact_witness :
  handleCardSubmission
    (turn None (JObj [prop "type" (str "JiraInformation");
                      prop "sprintId" (str "S"); prop "boardId" (str "B")]))
    = (Normal tt,
       after (turn None (JObj [prop "type" (str "JiraInformation");
                               prop "sprintId" (str "S");
                               prop "boardId" (str "B")]))
         (textReply thankYouMessage)) /\
  handleCancelNotificationSubmission
    (JObj [prop "type" (str "cancelNotification"); prop "choice" (str "Yes")])
    (turn None JUndefined)
    = (Normal tt, after (turn None JUndefined) (textReply [])) /\
  processUserInputStep (turn (Some (u " Cancel")) JUndefined)
    = (Normal (mkResult complete),
       after (turn (Some (u " Cancel")) JUndefined)
         (cardReply cancelNotificationCard)).
Proof.
  destruct C10_payload_dispatch_is_exact as [Htype [Hchoice Htext]].
  split; [|split].
  - apply (Htype _ (u "JiraInformation") (u "jiraInformation"));
      [reflexivity|simpl; auto|].
    split; [reflexivity|vm_compute; discriminate].
  - apply (Hchoice _ (u "Yes") (u "yes"));
      [reflexivity|simpl; auto|].
    split; [reflexivity|vm_compute; discriminate].
  - apply (Htext (u " Cancel")); reflexivity.
Defined.

End DialogProps.

(* ===================================================================== *)
(** * Properties of the JSON file store *)
(* ===================================================================== *)

Module DbProps.
Import Js Db Spec.

Lemma notFound_not_wrapped (p m : JsString) :
  startsWith (u "File not found")
    (u "Failed to load data from " ++ p ++ u ": " ++ m) = false.
Proof. reflexivity. Qed.

Section WithRuntime.
Context {rt : Runtime}.

Lemma load_unfold (p : JsString) (w : World) :
  load p w =
  match loadAttempt p w with
  | Normal v => (Normal v, w)
  | Throw error =>
      if codeIs error "ENOENT" then
        (Throw (Error (u "File not found ")),
         mkWorld (files w)
           (console w ++ [[u "File not found, throwing error for:"; p]]))
      else
        (Throw (Error (u "Failed to load data from " ++ p ++ u ": " ++
                       message error)), w)
  end.
Proof.
  unfold load, loadAttempt, tryCatch, bind, readFs, liftC.
  destruct (readFileSync p (files w)) as [s|e].
  - destruct (JSON_parse s) as [v|e]; [reflexivity|].
    destruct (codeIs e "ENOENT"); reflexivity.
  - destruct (codeIs e "ENOENT"); reflexivity.
Qed.

Lemma load_failure (p : JsString) (w : World) (e0 : JsError) :
  loadAttempt p w = Throw e0 ->
  exists e w',
    load p w = (Throw e, w') /\ files w' = files w /\
    (codeIs e0 "ENOENT" = true -> e = Error (u "File not found ")) /\
    (codeIs e0 "ENOENT" = false ->
       message e
         = u "Failed to load data from " ++ p ++ u ": " ++ message e0 /\
       includes (message e) (message e0) = true /\
       startsWith (u "File not found") (message e) = false).
Proof.
  intros H. rewrite load_unfold, H.
  destruct (codeIs e0 "ENOENT") eqn:E.
  - eexists; eexists. split; [reflexivity|]. split; [reflexivity|].
    split; [reflexivity|discriminate].
  - eexists; eexists. split; [reflexivity|]. split; [reflexivity|].
    split; [discriminate|]. intros _. cbn [message Error].
    split; [reflexivity|]. split; [|apply notFound_not_wrapped].
    apply DialogProps.includes_intro with
      (pre := u "Failed to load data from " ++ p ++ u ": ") (post := []).
    rewrite app_nil_r. repeat rewrite <- app_assoc. reflexivity.
Qed.

(** C8.  [exists] always completes normally and leaves the world as it
    was; it returns [true] exactly when [accessSync] succeeds on the
    path, and [false] whatever [accessSync] throws. *)
Theorem C8_exists_never_raises (p : JsString) (w : World) :
  exists b,
    exists_ p w = (Normal b, w) /\
    (b = true <-> accessSync p (files w) = Normal tt) /\
    (forall e, accessSync p (files w) = Throw e -> b = false).
Proof.
  unfold exists_, tryCatch, bind, readFs, ret.
  destruct (accessSync p (files w)) as [[]|e].
  - exists true. split; [reflexivity|]. split; [tauto|discriminate].
  - exists false. split; [reflexivity|].
    split; [split; discriminate|reflexivity].
Qed.

Lemma store_written
  (p : JsString) (v : Value) (options : option StoreOptions)
  (w w' : World) :
  store p v options w = (Normal tt, w') ->
  exists fs1,
    writeFileSync p (JSON_stringify v (indentOf options)) fs1
      = (Normal tt, files w').
Proof.
  unfold store, tryCatch, bind, onFs, ret, throw.
  fold (indentOf options).
  destruct (orDefault (createDirectory _) true).
  - destruct (mkdirSync (dirname p) (files w)) as [[[]|e] fs1];
      cbn [files]; [|discriminate].
    destruct (writeFileSync p _ fs1) as [[[]|e] fs2] eqn:E; [|discriminate].
    intros [= <-]. exists fs1. exact E.
  - destruct (writeFileSync p _ (files w)) as [[[]|e] fs2] eqn:E;
      [|discriminate].
    intros [= <-]. exists (files w). exact E.
Qed.



End WithRuntime.

(** C2 (as amended).  There is a file-not-found error for each path,
    determined by the path alone, whose message begins with "File not
    found", such that: when reading or parsing fails with code [ENOENT],
    [load] fails with that error, whatever the underlying error and its
    message are; every other failure of [load] is an error whose message
    is "Failed to load data from <path>: " followed by the underlying
    message, and does not begin with "File not found".  [load] fails only
    when reading or parsing does, and never touches the files. *)
Theorem C2_load_failures :
  exists notFound : JsString -> JsError,
    (forall p, startsWith (u "File not found") (message (notFound p)) = true) /\
    forall (rt : Runtime) (p : JsString) (w : World),
      (forall e0,
         loadAttempt p w = Throw e0 ->
         exists e w',
           load p w = (Throw e, w') /\ files w' = files w /\
           (codeIs e0 "ENOENT" = true -> e = notFound p) /\
           (codeIs e0 "ENOENT" = false ->
              message e
                = u "Failed to load data from " ++ p ++ u ": "
                    ++ message e0 /\
              includes (message e) (message e0) = true /\
              startsWith (u "File not found") (message e) = false)) /\
      (forall v, loadAttempt p w = Normal v -> load p w = (Normal v, w)).
Proof.
  exists (fun _ => Error (u "File not found ")).
  split; [reflexivity|].
  intros rt p w. split.
  - intros e0 H. exact (load_failure p w e0 H).
  - intros v H. now rewrite load_unfold, H.
Qed.

(** ** The in-memory implementation *)



Lemma C2_load_failures_witness :
  (exists e w',
     load (rt := memRuntime) (u "missing.json") emptyWorld = (Throw e, w') /\
     startsWith (u "File not found") (message e) = true) /\
  (exists e w',
     load (rt := memRuntime) (u "bad.json")
       (mkWorld [(u "bad.json", File (u "{oops"))] [])
       = (Throw e, w') /\
     startsWith (u "Failed to load data from bad.json: ") (message e)
       = true /\
     startsWith (u "File not found") (message e) = false).
Proof.
  destruct C2_load_failures as [notFound [Hstarts Hall]].
  split.
  - destruct (Hall memRuntime (u "missing.json") emptyWorld) as [H _].
    destruct (H (errno "ENOENT" "open" "no such file or directory"
                   (u "missing.json")) eq_refl)
      as [e [w' [Hl [_ [H1 _]]]]].
    exists e, w'. split; [exact Hl|].
    rewrite (H1 eq_refl). apply Hstarts.
  - destruct (Hall memRuntime (u "bad.json")
                (mkWorld [(u "bad.json", File (u "{oops"))] []))
      as [H _].
    destruct (H (Json.SyntaxError (u "Unexpected token in JSON")) eq_refl)
      as [e [w' [Hl [_ [_ H2]]]]].
    exists e, w'. split; [exact Hl|].
    destruct (H2 eq_refl) as [Hm [_ Hn]]. split; [|exact Hn].
    rewrite Hm. reflexivity.
Defined.

(** C2 as the specification states it fails: [load] of a missing file
    fails with "File not found ", which does not contain the message of
    the underlying ENOENT error. *)
Lemma C2_not_found_drops_original_message :
  ~ spec_carriesOriginal (rt := memRuntime) (u "missing.json") emptyWorld.
Proof.
  intros H.
  destruct (H (errno "ENOENT" "open" "no such file or directory"
                 (u "missing.json")) eq_refl) as [e [w' [Hl Hinc]]].
  vm_compute in Hl. injection Hl as <- _.
  vm_compute in Hinc. discriminate Hinc.
Qed.


(** The round trip on the in-memory implementation, for the values the
    specification singles out. *)
Example roundtrip_empty_object :
  storeThenLoad (u "./test-data-edge-cases/empty-object.json") (JObj [])
    = Normal (JObj []).
Proof. vm_compute. reflexivity. Qed.

Example roundtrip_empty_array :
  storeThenLoad (u "./test-data-edge-cases/empty-array.json") (JArr [])
    = Normal (JArr []).
Proof. vm_compute. reflexivity. Qed.

Example roundtrip_nested :
  storeThenLoad (u "./test-data-sync/db.json") complexData
    = Normal complexData.
Proof. vm_compute. reflexivity. Qed.

Example roundtrip_large :
  storeThenLoad (u "./test-data-edge-cases/large-data.json") largeData
    = Normal largeData.
Proof. vm_compute. reflexivity. Qed.

(** What the store's tests expect besides: no file before [store], one
    right after; no directory, no file, when [createDirectory] is off. *)
Example exists_before_and_after :
  let p := u "./test-data-sync/db.json" in
  fst (exists_ (rt := memRuntime) p emptyWorld) = Normal false /\
  fst (exists_ p (snd (store p (JObj [prop "test" (JBool true)]) None
                         emptyWorld))) = Normal true.
Proof. split; vm_compute; reflexivity. Qed.

Example store_without_directory_fails :
  exists e w',
    store (rt := memRuntime) (u "./test-data-sync/noCreate/db.json")
      (JObj [prop "test" (str "data")])
      (Some (mkOptions (Some false) None)) emptyWorld = (Throw e, w').
Proof. eexists; eexists. vm_compute. reflexivity. Qed.

End DbProps.

(* ===================================================================== *)
(** * Further properties of the command dialog *)
(* ===================================================================== *)

Module DialogMore.
Import Js Dialog Spec SpecMore.

(** X1.  A submission of type ['prompt'] is acknowledged with the
    prompt-sent message whatever else it holds: the [prompt] field is
    read and never looked at, so an absent or empty prompt is accepted
    like any other. *)
Theorem prompt_always_acknowledged
  (t : option JsString) (props : list (JsString * JsValue))
  (sent0 : list Outgoing) :
  lookupProp props (u "type") = JStr (u "prompt") ->
  let c := mkContext (mkActivity t (JObj props)) sent0 in
  processUserInputStep c
    = (Normal (mkResult complete), after c (textReply promptSentMessage)).
Proof.
  intros Hty c.
  rewrite DialogProps.step_with_payload by reflexivity.
  unfold bind at 1. unfold handleCardSubmission.
  cbn [c activity value]. unfold bind at 1. unfold liftC at 1.
  cbn [getProp]. rewrite Hty.
  change (strictEqualsStr (JStr (u "prompt")) (u "jiraInformation"))
    with false.
  change (strictEqualsStr (JStr (u "prompt")) (u "cancelNotification"))
    with false.
  change (strictEqualsStr (JStr (u "prompt")) (u "prompt")) with true.
  cbv iota. rewrite DialogProps.prompt_run. reflexivity.
Qed.

Lemma prompt_always_acknowledged_witness :
  let c := turn (Some (u "help")) (JObj [prop "type" (str "prompt")]) in
  processUserInputStep c
    = (Normal (mkResult complete), after c (textReply promptSentMessage)).
Proof.
  apply (prompt_always_acknowledged (Some (u "help"))
           [prop "type" (str "prompt")] []).
  reflexivity.
Defined.

(** X2.  A falsy [value] ([undefined], [null], [false], [0], the empty
    string) is no payload: the turn is processed as the text command it
    carries, exactly as if [value] were absent. *)
Theorem falsy_payload_is_no_payload
  (t : option JsString) (v : JsValue) (sent0 : list Outgoing) :
  truthy v = false ->
  In v [JUndefined; JNull; JBool false; JNum (int 0); JStr []] /\
  outcome (mkContext (mkActivity t v) sent0)
    = outcome (mkContext (mkActivity t JUndefined) sent0).
Proof.
  intros Hv. split.
  - destruct v as [| |[]|n|[|c s]|items|props]; simpl in Hv;
      try discriminate;
      try (apply negb_false_iff, Z.eqb_eq in Hv;
           apply (DialogProps.SafeInt_eq n (int 0)) in Hv; subst n);
      simpl; repeat first [left; reflexivity | right].
  - unfold outcome, processUserInputStep. cbn [activity text value].
    rewrite Hv. cbn [truthy].
    destruct (isCommand _ "help"); [reflexivity|].
    destruct (isCommand _ "configure"); [reflexivity|].
    destruct (isCommand _ "prompt"); [reflexivity|].
    destruct (isCommand _ "cancel"); reflexivity.
Qed.

Lemma falsy_payload_is_no_payload_witness :
  outcome (turn (Some (u "cancel")) (JNum (int 0)))
    = (Normal (mkResult complete), [cardReply cancelNotificationCard]).
Proof.
  destruct (falsy_payload_is_no_payload (Some (u "cancel")) (JNum (int 0)) []
              eq_refl) as [_ H].
  unfold turn. rewrite H. reflexivity.
Defined.

(** X3.  A truthy [value] that is not an object (a non-empty string, a
    non-zero number, [true], an array) has no [type]: it gets the generic
    acknowledgement, and the text of the turn is ignored. *)
Theorem primitive_payload_acknowledged
  (t : option JsString) (v : JsValue) (sent0 : list Outgoing) :
  truthy v = true ->
  (forall props, v <> JObj props) ->
  let c := mkContext (mkActivity t v) sent0 in
  processUserInputStep c
    = (Normal (mkResult complete), after c (textReply thankYouMessage)).
Proof.
  intros Ht Hn c.
  rewrite DialogProps.step_with_payload by exact Ht.
  unfold bind.
  rewrite (DialogProps.submission_not_object c Ht Hn). reflexivity.
Qed.

Lemma primitive_payload_acknowledged_witness :
  let c := turn (Some (u "configure")) (JArr []) in
  processUserInputStep c
    = (Normal (mkResult complete), after c (textReply thankYouMessage)).
Proof.
  apply (primitive_payload_acknowledged (Some (u "configure")) (JArr []) []).
  - reflexivity.
  - intros props H. discriminate H.
Defined.

(** X4.  The answer to a jiraInformation submission is decided by
    [sprintId] and [boardId] alone: two submissions that agree on these
    two fields get the same answer, whatever [sprintName], [sprintKey]
    or any further field hold. *)
Theorem jira_reply_reads_two_fields
  (props props' : list (JsString * JsValue)) (c : TurnContext) :
  lookupProp props (u "sprintId") = lookupProp props' (u "sprintId") ->
  lookupProp props (u "boardId") = lookupProp props' (u "boardId") ->
  handleJiraInformationSubmission (JObj props) c
    = handleJiraInformationSubmission (JObj props') c.
Proof.
  intros Hs Hb. rewrite !DialogProps.jira_run. now rewrite Hs, Hb.
Qed.

Lemma jira_reply_reads_two_fields_witness :
  handleJiraInformationSubmission
    (JObj [prop "type" (str "jiraInformation"); prop "sprintId" (str "S-1");
           prop "boardId" (str "B-2"); prop "sprintName" (str "Sprint one");
           prop "sprintKey" (str "S1")])
    (turn None JUndefined)
  = handleJiraInformationSubmission
      (JObj [prop "boardId" (str "B-2"); prop "sprintId" (str "S-1")])
      (turn None JUndefined).
Proof.
  apply jira_reply_reads_two_fields; reflexivity.
Defined.

(** X5.  Each card binds its submission to its own handler: a payload
    whose [type] is the one carried by the submit action of the
    Jira-configuration, cancel or prompt card is handled by
    [handleJiraInformationSubmission],
    [handleCancelNotificationSubmission] or [handlePromptSubmission]
    respectively, never by the default branch. *)
Theorem card_submission_reaches_its_handler
  (props : list (JsString * JsValue)) (c : TurnContext) :
  value (activity c) = JObj props ->
  (lookupProp props (u "type") = submitType jiraInformationCard ->
   handleCardSubmission c = handleJiraInformationSubmission (JObj props) c) /\
  (lookupProp props (u "type") = submitType cancelNotificationCard ->
   handleCardSubmission c
     = handleCancelNotificationSubmission (JObj props) c) /\
  (lookupProp props (u "type") = submitType promptToAgentCard ->
   handleCardSubmission c = handlePromptSubmission (JObj props) c).
Proof.
  intros Hv.
  repeat split; intros Hty; unfold handleCardSubmission; rewrite Hv;
    unfold bind at 1; unfold liftC at 1; cbn [getProp]; rewrite Hty;
    reflexivity.
Qed.

Lemma card_submission_reaches_its_handler_witness :
  let props := [prop "type" (str "cancelNotification");
                prop "choice" (str "yes")] in
  handleCardSubmission (turn None (JObj props))
    = handleCancelNotificationSubmission (JObj props)
        (turn None (JObj props)).
Proof.
  intros props.
  destruct (card_submission_reaches_its_handler props
              (turn None (JObj props)) eq_refl) as [_ [H _]].
  apply H. reflexivity.
Defined.

End DialogMore.

(* ===================================================================== *)
(** * Further properties of the JSON file store *)
(* ===================================================================== *)

Module DbMore.
Import Js Db Spec SpecMore.

Section WithRuntime.
Context {rt : Runtime}.

(** [store], branch by branch. *)
Lemma store_unfold
  (p : JsString) (v : Value) (options : option StoreOptions) (w : World) :
  store p v options w =
  let text := JSON_stringify v (indentOf options) in
  let write fs :=
    match writeFileSync p text fs with
    | (Normal _, fs2) => (Normal tt, mkWorld fs2 (console w))
    | (Throw e0, fs2) => (Throw (wrapped p e0), mkWorld fs2 (console w))
    end in
  if orDefault (createDirectory (orDefault options (mkOptions None None)))
       true
  then
    match mkdirSync (dirname p) (files w) with
    | (Normal _, fs1) => write fs1
    | (Throw e0, fs1) => (Throw (wrapped p e0), mkWorld fs1 (console w))
    end
  else write (files w).
Proof.
  unfold store, tryCatch, bind, onFs, ret, throw, wrapped.
  fold (indentOf options).
  destruct (orDefault (createDirectory _) true).
  - destruct (mkdirSync (dirname p) (files w)) as [[[]|e] fs1];
      cbn [files console]; [|reflexivity].
    destruct (writeFileSync p _ fs1) as [[[]|e] fs2]; reflexivity.
  - destruct w as [fs cs]. cbn [files console].
    destruct (writeFileSync p _ fs) as [[[]|e] fs2]; reflexivity.
Qed.


(** X7.  What [load] throws is always a plain [Error] without [code]:
    the [ENOENT] of a missing file, like any other code, is not on the
    error the caller gets. *)
Theorem load_error_has_no_code
  (p : JsString) (w w' : World) (e : JsError) :
  load p w = (Throw e, w') ->
  name e = u "Error" /\ code e = None.
Proof.
  rewrite DbProps.load_unfold.
  destruct (loadAttempt p w) as [x|e0]; [discriminate|].
  destruct (codeIs e0 "ENOENT"); intros [= <- _]; split; reflexivity.
Qed.

(** X8.  [store] and [exists] write nothing to the console; [load] writes
    one line, naming the path, exactly when it fails on an underlying
    error of code [ENOENT]. *)
Theorem console_effects
  (p : JsString) (v : Value) (options : option StoreOptions) (w : World) :
  console (snd (store p v options w)) = console w /\
  console (snd (exists_ p w)) = console w /\
  console (snd (load p w)) =
    match loadAttempt p w with
    | Throw e0 =>
        if codeIs e0 "ENOENT"
        then console w ++ [[u "File not found, throwing error for:"; p]]
        else console w
    | Normal _ => console w
    end.
Proof.
  split; [|split].
  - rewrite store_unfold. cbv zeta.
    destruct (orDefault (createDirectory _) true).
    + destruct (mkdirSync (dirname p) (files w)) as [[[]|e0] fs1];
        [|reflexivity].
      destruct (writeFileSync p _ fs1) as [[[]|e0] fs2]; reflexivity.
    + destruct (writeFileSync p _ (files w)) as [[[]|e0] fs2]; reflexivity.
  - unfold exists_, tryCatch, bind, readFs, ret.
    destruct (accessSync p (files w)) as [[]|e0]; reflexivity.
  - rewrite DbProps.load_unfold.
    destruct (loadAttempt p w) as [x|e0]; [reflexivity|].
    destruct (codeIs e0 "ENOENT"); reflexivity.
Qed.

(** [store] leaves the console alone, and its files are those the last
    [fs] call it made left. *)
Lemma store_files
  (p : JsString) (v : Value) (options : option StoreOptions)
  (w w' : World) (c : Completion unit) :
  store p v options w = (c, w') ->
  console w' = console w /\
  ((exists c1, mkdirSync (dirname p) (files w) = (c1, files w')) \/
   (exists fs1 c2,
      (fs1 = files w \/ exists c1, mkdirSync (dirname p) (files w) = (c1, fs1))
      /\ writeFileSync p (JSON_stringify v (indentOf options)) fs1
         = (c2, files w'))).
Proof.
  rewrite store_unfold. cbv zeta.
  destruct (orDefault (createDirectory _) true).
  - destruct (mkdirSync (dirname p) (files w)) as [[[]|e0] fs1] eqn:Em.
    + destruct (writeFileSync p _ fs1) as [[[]|e0] fs2] eqn:Ew;
        intros [= _ <-]; (split; [reflexivity|]); right;
        exists fs1; eexists; (split; [right; eexists; reflexivity|]);
        cbn [files]; exact Ew.
    + intros [= _ <-]. split; [reflexivity|]. left. eexists. reflexivity.
  - destruct (writeFileSync p _ (files w)) as [[[]|e0] fs2] eqn:Ew;
      intros [= _ <-]; (split; [reflexivity|]); right;
      exists (files w); eexists; (split; [now left|]);
      cbn [files]; exact Ew.
Qed.

(** X9.  On a file system where a written file can be accessed, [exists]
    returns [true] for a path right after a [store] at it completed. *)
Theorem exists_after_store
  (p : JsString) (v : Value) (options : option StoreOptions)
  (w w' : World) :
  writtenIsAccessible ->
  store p v options w = (Normal tt, w') ->
  exists_ p w' = (Normal true, w').
Proof.
  intros Hacc Hstore.
  apply DbProps.store_written in Hstore as [fs1 Hw]. apply Hacc in Hw.
  unfold exists_, tryCatch, bind, readFs, ret. now rewrite Hw.
Qed.

(** X10.  On a file system where creating directories leaves the files
    as they were, and writing at one path leaves every path that does
    not name the same file as it was, a [store] at [p], completed or
    failed, does not change what [load] returns for a path [q] that could
    be loaded before and does not name the same file as [p]. *)
Theorem store_keeps_other_paths
  (sameFile : JsString -> JsString -> Prop)
  (p q : JsString) (v x : Value) (options : option StoreOptions)
  (w w' : World) (c : Completion unit) :
  mkdirKeepsFiles -> writeKeepsOthers sameFile ->
  ~ sameFile p q ->
  load q w = (Normal x, w) ->
  store p v options w = (c, w') ->
  load q w' = (Normal x, w').
Proof.
  intros Hmk Hwr Hqp Hload Hstore.
  rewrite DbProps.load_unfold in Hload.
  unfold loadAttempt in Hload.
  destruct (readFileSync q (files w)) as [s|e0] eqn:Er.
  2:{ destruct (codeIs e0 "ENOENT"); discriminate Hload. }
  destruct (JSON_parse s) as [y|e0] eqn:Ep.
  2:{ destruct (codeIs e0 "ENOENT"); discriminate Hload. }
  injection Hload as ->.
  assert (Hr : readFileSync q (files w') = Normal s).
  { destruct (store_files p v options w w' c Hstore) as [_ [[c1 Hm]|H]].
    - exact (Hmk _ _ _ _ q s Hm Er).
    - destruct H as [fs1 [c2 [Hfs1 Hw]]].
      apply (Hwr p q _ fs1 c2 (files w') s Hqp Hw).
      destruct Hfs1 as [->|[c1 Hm]]; [exact Er|].
      exact (Hmk _ _ _ _ q s Hm Er). }
  rewrite DbProps.load_unfold. unfold loadAttempt. now rewrite Hr, Ep.
Qed.


End WithRuntime.

(** ** The in-memory implementation satisfies the three laws, two paths
    naming the same file there when they are the same path *)

Lemma mem_writtenIsAccessible : writtenIsAccessible (rt := memRuntime).
Proof.
  intros p d fs fs'. cbn [writeFileSync accessSync memRuntime].
  unfold memWriteFile, memAccess.
  destruct d as [s|]; [|discriminate].
  destruct (isEmpty p); [discriminate|].
  destruct (isRootDir p || endsWithSlash p) eqn:Eroot; [discriminate|].
  apply orb_false_iff in Eroot as [Eroot _]. rewrite Eroot.
  destruct (memLookup fs p) as [[c|]|];
    try destruct (memIsDir fs (posixDirname p));
    try discriminate;
    intros [= <-]; cbn [memLookup];
    now rewrite DialogProps.str_eqb_refl.
Qed.

Lemma mem_writeKeepsOthers : writeKeepsOthers (rt := memRuntime) eq.
Proof.
  intros p q d fs c fs' s0 Hqp.
  cbn [writeFileSync readFileSync memRuntime].
  unfold memWriteFile, memReadFile.
  assert (Hne : str_eqb p q = false)
    by (apply DialogProps.str_eqb_neq; congruence).
  destruct d as [s|]; [|now intros [= _ <-]].
  destruct (isEmpty p); [now intros [= _ <-]|].
  destruct (isRootDir p || endsWithSlash p); [now intros [= _ <-]|].
  destruct (memLookup fs p) as [[c0|]|];
    try destruct (memIsDir fs (posixDirname p));
    intros [= _ <-]; cbn [memLookup]; now rewrite ?Hne.
Qed.

Lemma memMkdir_keeps_files
  (fuel : nat) (d : JsString) (fs fs' : MemFs) (c : Completion unit)
  (q s : JsString) :
  memMkdir fuel d fs = (c, fs') ->
  memLookup fs q = Some (File s) ->
  memLookup fs' q = Some (File s).
Proof.
  revert d fs' c. induction fuel as [|f IH]; intros d fs' c; cbn [memMkdir].
  - destruct (memIsDir fs d); [now intros [= _ <-]|].
    destruct (memLookup fs d) as [[c0|]|]; now intros [= _ <-].
  - destruct (memIsDir fs d); [now intros [= _ <-]|].
    destruct (memLookup fs d) as [[c0|]|] eqn:Ed;
      try (now intros [= _ <-]).
    + destruct (memMkdir f (posixDirname d) fs) as [[[]|e] fs1] eqn:Em;
        intros [= _ <-] Hq; pose proof (IH _ _ _ Em Hq) as H1;
        [|exact H1].
      cbn [memLookup].
      destruct (str_eqb d q) eqn:E; [|exact H1].
      apply DialogProps.str_eqb_eq in E. subst q. congruence.
    + destruct (memMkdir f (posixDirname d) fs) as [[[]|e] fs1] eqn:Em;
        intros [= _ <-] Hq; pose proof (IH _ _ _ Em Hq) as H1;
        [|exact H1].
      cbn [memLookup].
      destruct (str_eqb d q) eqn:E; [|exact H1].
      apply DialogProps.str_eqb_eq in E. subst q. congruence.
Qed.

Lemma mem_mkdirKeepsFiles : mkdirKeepsFiles (rt := memRuntime).
Proof.
  intros d fs c fs' q s. cbn [mkdirSync readFileSync memRuntime].
  unfold memReadFile. intros Hm Hr.
  assert (Hq : memLookup fs q = Some (File s)).
  { destruct (memLookup fs q) as [[c0|]|]; try discriminate;
      [now injection Hr as ->|now destruct (isRootDir q)]. }
  now rewrite (memMkdir_keeps_files _ _ _ _ _ _ _ Hm Hq).
Qed.


Lemma load_error_has_no_code_witness :
  exists e w',
    load (rt := memRuntime) (u "missing.json") emptyWorld = (Throw e, w') /\
    code e = None.
Proof.
  eexists; eexists. split; [vm_compute; reflexivity|].
  match goal with
  | |- code ?e = None =>
      apply (@load_error_has_no_code memRuntime (u "missing.json")
               emptyWorld
               (mkWorld []
                  [[u "File not found, throwing error for:";
                    u "missing.json"]]) e)
  end.
  vm_compute. reflexivity.
Defined.

Lemma exists_after_store_witness :
  let p := u "./test-data-sync/db.json" in
  let w' := snd (store (rt := memRuntime) p
                   (JObj [prop "test" (JBool true)]) None emptyWorld) in
  exists_ (rt := memRuntime) p emptyWorld = (Normal false, emptyWorld) /\
  exists_ (rt := memRuntime) p w' = (Normal true, w').
Proof.
  intros p w'. split; [vm_compute; reflexivity|].
  apply (@exists_after_store memRuntime p
           (JObj [prop "test" (JBool true)]) None emptyWorld w').
  - exact mem_writtenIsAccessible.
  - vm_compute. reflexivity.
Defined.

Lemma store_keeps_other_paths_witness :
  let p := u "./app/users.json" in
  let q := u "./app/config.json" in
  let w1 := snd (store (rt := memRuntime) q complexData None emptyWorld) in
  let w2 :=
    snd (store (rt := memRuntime) p (JArr [JNum (int 1)]) None w1) in
  load (rt := memRuntime) q w2 = (Normal complexData, w2).
Proof.
  intros p q w1 w2.
  apply (@store_keeps_other_paths memRuntime eq p q (JArr [JNum (int 1)])
           complexData None w1 w2 (Normal tt)).
  - exact mem_mkdirKeepsFiles.
  - exact mem_writeKeepsOthers.
  - vm_compute. discriminate.
  - vm_compute. reflexivity.
  - vm_compute. reflexivity.
Defined.

End DbMore.

(* ===================================================================== *)
(** * Properties of the registry of conversations *)
(* ===================================================================== *)

Module BotProps.
Import Js Bot SpecMore.

Lemma lookup_setProp_same
  (r : list (JsString * JsValue)) (k : JsString) (v : JsValue) :
  lookupProp (Json.setProp r k v) k = v.
Proof.
  induction r as [|[k' v'] r IH]; cbn [Json.setProp lookupProp].
  - now rewrite DialogProps.str_eqb_refl.
  - destruct (str_eqb k' k) eqn:E; cbn [lookupProp]; rewrite E;
      [reflexivity|exact IH].
Qed.

Lemma lookup_setProp_other
  (r : list (JsString * JsValue)) (k k0 : JsString) (v : JsValue) :
  k0 <> k -> lookupProp (Json.setProp r k v) k0 = lookupProp r k0.
Proof.
  intros Hne. induction r as [|[k' v'] r IH]; cbn [Json.setProp lookupProp].
  - rewrite DialogProps.str_eqb_neq by congruence. reflexivity.
  - destruct (str_eqb k' k) eqn:E; cbn [lookupProp].
    + apply DialogProps.str_eqb_eq in E. subst k'.
      rewrite DialogProps.str_eqb_neq by congruence. reflexivity.
    + destruct (str_eqb k' k0); [reflexivity|exact IH].
Qed.

Lemma keys_setProp
  (r : list (JsString * JsValue)) (k : JsString) (v : JsValue) :
  map fst (Json.setProp r k v) =
  if existsb (fun k' => str_eqb k' k) (map fst r) then map fst r
  else map fst r ++ [k].
Proof.
  induction r as [|[k' v'] r IH]; cbn [Json.setProp map fst existsb app];
    [reflexivity|].
  destruct (str_eqb k' k) eqn:E; cbn [map fst orb]; [reflexivity|].
  rewrite IH. now destruct (existsb _ (map fst r)).
Qed.

Lemma existsb_key_false (keys : list JsString) (k : JsString) :
  existsb (fun k' => str_eqb k' k) keys = false -> ~ In k keys.
Proof.
  intros H Hin.
  assert (existsb (fun k' => str_eqb k' k) keys = true); [|congruence].
  apply existsb_exists. exists k. split; [exact Hin|].
  apply DialogProps.str_eqb_refl.
Qed.

Lemma NoDup_setProp
  (r : list (JsString * JsValue)) (k : JsString) (v : JsValue) :
  NoDup (map fst r) -> NoDup (map fst (Json.setProp r k v)).
Proof.
  intros H. rewrite keys_setProp.
  destruct (existsb _ (map fst r)) eqn:E; [exact H|].
  apply NoDup_app; [exact H|constructor; [intros []|constructor]|].
  intros x Hx [<-|[]]. now apply (existsb_key_false _ _ E).
Qed.

Section Registry.
Variable getConversationReference : JsValue -> JsValue.

(** X11.  When the activity's reference has a conversation id that
    converts to a property key (other than ["__proto__"]),
    [addConversationReference] records the reference under that key:
    afterwards the registry holds it there, every other entry is as
    before, the keys are still pairwise distinct (one entry per
    conversation), and the registry has grown by one entry exactly when
    the key was new.  When the conversion of the id throws, the error
    leaves [addConversationReference] after its two console lines and the
    registry is as it was. *)
Theorem registry_holds_latest_reference
  (activity conversation id : JsValue) (st : BotState) :
  getProp (getConversationReference activity) (u "conversation")
    = Normal conversation ->
  getProp conversation (u "id") = Normal id ->
  (forall key,
     toString id = Normal key ->
     key <> u "__proto__" ->
     exists st',
       addConversationReference getConversationReference activity st
         = (Normal tt, st') /\
       lookupProp (conversationReferences st') key
         = getConversationReference activity /\
       (forall k, k <> key ->
          lookupProp (conversationReferences st') k
            = lookupProp (conversationReferences st) k) /\
       (NoDup (map fst (conversationReferences st)) ->
        NoDup (map fst (conversationReferences st'))) /\
       List.length (conversationReferences st')
         = (if existsb (fun k' => str_eqb k' key)
                 (map fst (conversationReferences st))
            then List.length (conversationReferences st)
            else S (List.length (conversationReferences st))) /\
       prototype st' = prototype st /\
       logged st'
         = logged st ++ twoLines (getConversationReference activity)) /\
  (forall e,
     toString id = Throw e ->
     addConversationReference getConversationReference activity st
       = (Throw e,
          mkBot (conversationReferences st) (prototype st)
            (logged st ++ twoLines (getConversationReference activity)))).
Proof.
  intros Hc Hid. split.
  - intros key Hkey Hk.
    unfold addConversationReference, bind, console_log, liftC, assign.
    cbn [conversationReferences prototype logged].
    rewrite Hc, Hid, Hkey. rewrite (DialogProps.str_eqb_neq _ _ Hk).
    eexists. split; [reflexivity|].
    cbn [conversationReferences prototype logged].
    split; [apply lookup_setProp_same|].
    split; [intros k Hne; now apply lookup_setProp_other|].
    split; [apply NoDup_setProp|].
    split.
    + rewrite <- (length_map fst (Json.setProp _ _ _)), keys_setProp.
      destruct (existsb _ _); rewrite ?length_app, length_map;
        cbn [List.length]; lia.
    + split; [reflexivity|]. rewrite <- app_assoc. reflexivity.
  - intros e He.
    unfold addConversationReference, bind, console_log, liftC.
    cbn [conversationReferences prototype logged].
    rewrite Hc, Hid, He. rewrite <- app_assoc. reflexivity.
Qed.

(** X12.  When the reference has no conversation ([undefined] or
    [null]), [addConversationReference] throws a TypeError after its two
    console lines, and the registry is left as it was. *)
Theorem missing_conversation_throws
  (activity conversation : JsValue) (st : BotState) :
  getProp (getConversationReference activity) (u "conversation")
    = Normal conversation ->
  conversation = JUndefined \/ conversation = JNull ->
  exists e,
    addConversationReference getConversationReference activity st
      = (Throw e,
         mkBot (conversationReferences st) (prototype st)
           (logged st ++ twoLines (getConversationReference activity))) /\
    name e = u "TypeError".
Proof.
  intros Hc Hu.
  unfold addConversationReference, bind, console_log, liftC.
  cbn [conversationReferences prototype logged].
  rewrite Hc. rewrite <- app_assoc.
  destruct Hu as [-> | ->]; eexists; split; reflexivity.
Qed.

(** X13.  A conversation whose id is ["__proto__"] is never registered:
    on the registry as created ([{}]) the assignment reaches the
    prototype setter, so the own entries, which are all that
    [Object.values] enumerates, stay as they were. *)
Theorem proto_id_is_not_registered
  (activity conversation id : JsValue) (st : BotState) :
  getProp (getConversationReference activity) (u "conversation")
    = Normal conversation ->
  getProp conversation (u "id") = Normal id ->
  toString id = Normal (u "__proto__") ->
  prototype st = None ->
  exists st',
    addConversationReference getConversationReference activity st
      = (Normal tt, st') /\
    conversationReferences st' = conversationReferences st.
Proof.
  intros Hc Hid Hk Hp.
  unfold addConversationReference, bind, console_log, liftC, assign.
  cbn [conversationReferences prototype logged].
  rewrite Hc, Hid, Hk, Hp.
  change (str_eqb (u "__proto__") (u "__proto__")) with true. cbv iota.
  destruct (isObjectOrNull (getConversationReference activity));
    eexists; split; reflexivity.
Qed.

End Registry.

Lemma registry_holds_latest_reference_witness :
  let st := mkBot [(u "conv-1", referenceOf (messageFrom "conv-1"))] None [] in
  exists st',
    addConversationReference referenceOf (messageFrom "conv-2") st
      = (Normal tt, st') /\
    map fst (conversationReferences st') = [u "conv-1"; u "conv-2"] /\
    lookupProp (conversationReferences st') (u "conv-2")
      = referenceOf (messageFrom "conv-2").
Proof.
  intros st.
  destruct (registry_holds_latest_reference referenceOf
              (messageFrom "conv-2") (JObj [prop "id" (str "conv-2")])
              (str "conv-2") st eq_refl eq_refl)
    as [Hkey _].
  destruct (Hkey (u "conv-2") eq_refl) as [st' [Hrun [Hl _]]].
  - vm_compute. discriminate.
  - exists st'. split; [exact Hrun|].
    vm_compute in Hrun. injection Hrun as <-.
    split; [reflexivity|exact Hl].
Defined.

Lemma missing_conversation_throws_witness :
  exists e st',
    addConversationReference referenceOf
      (JObj [prop "type" (str "message")]) (mkBot [] None [])
      = (Throw e, st') /\
    conversationReferences st' = [] /\ name e = u "TypeError".
Proof.
  destruct (missing_conversation_throws referenceOf
              (JObj [prop "type" (str "message")]) JUndefined
              (mkBot [] None []) eq_refl (or_introl eq_refl))
    as [e [Hrun Hn]].
  exists e. eexists. split; [exact Hrun|]. split; [reflexivity|exact Hn].
Defined.

Lemma proto_id_is_not_registered_witness :
  exists st',
    addConversationReference referenceOf (messageFrom "__proto__")
      (mkBot [] None []) = (Normal tt, st') /\
    conversationReferences st' = [].
Proof.
  apply (proto_id_is_not_registered referenceOf (messageFrom "__proto__")
           (JObj [prop "id" (str "__proto__")]) (str "__proto__")
           (mkBot [] None [])); reflexivity.
Defined.

End BotProps.

(* ===================================================================== *)
(** * Properties of the agent notifier *)
(* ===================================================================== *)

Module AgentProps.
Import Js Agent SpecMore.

Section WithAxios.
Context {ax : Axios}.

(** X14.  Without a base URL ([AgentURL] unset or empty) [sendMessage]
    fails with "AgentURL environment variable is not set." and makes no
    request: the network is as it was, and one line went to the error
    stream. *)
Theorem sendMessage_needs_base_url (data : AgentRequest) (w : AgentWorld) :
  agentURL w = None \/ agentURL w = Some [] ->
  sendMessage data w
    = (Throw (Error (u "AgentURL environment variable is not set.")),
       mkAgentWorld (agentURL w) (net w)
         (output w ++
          [(Stderr,
            [Bot.LogText
               (u "Error: AgentURL environment variable is not set.")])])).
Proof.
  destruct w as [url n o]. cbn [agentURL net output].
  intros H. unfold sendMessage, bind, envAgentURL, console_to, throw.
  cbn [agentURL net output].
  destruct H as [-> | ->]; reflexivity.
Qed.

(** X15.  With a base URL [sendMessage] makes exactly one request,
    [axios.get] of the base URL followed by "/message" with the data as
    its configuration: the network ends as that call leaves it, the
    result is the [data] of the response, and an error of the call is
    thrown on as it is.  Only an error that is not an axios error is
    written to the error stream. *)
Theorem sendMessage_one_request
  (data : AgentRequest) (w : AgentWorld) (b : JsString) :
  agentURL w = Some b -> b <> [] ->
  let call := axios_get (b ++ u "/message") (mkConfig data) (net w) in
  let w' := snd (sendMessage data w) in
  net w' = snd call /\
  agentURL w' = agentURL w /\
  fst (sendMessage data w)
    = match fst call with
      | Normal response => Normal (response_data response)
      | Throw error => Throw error
      end /\
  output w' =
    output w ++
    [(Stdout,
      [Bot.LogText (u "Sending GET request to: " ++ b ++ u "/message")])] ++
    match fst call with
    | Normal _ => []
    | Throw error =>
        if isAxiosError error then []
        else [(Stderr,
               [Bot.LogText (u "An unexpected error occurred:");
                Bot.LogError error])]
    end.
Proof.
  destruct w as [url n o]. cbn [agentURL net output].
  intros -> Hne. cbv zeta.
  unfold sendMessage, bind, envAgentURL, console_to, throw, tryCatch,
    onNet, ret.
  destruct b as [|c b]; [now contradiction Hne|].
  cbn [unset show agentURL net output].
  destruct (axios_get _ _ n) as [[r|e] n'] eqn:E;
    cbn [fst snd net agentURL output].
  - rewrite app_nil_r. repeat split; reflexivity.
  - destruct (isAxiosError e); cbn [fst snd net agentURL output];
      rewrite ?app_nil_r; repeat split; try reflexivity.
    now rewrite <- app_assoc.
Qed.

End WithAxios.

Lemma sendMessage_needs_base_url_witness :
  let w := mkAgentWorld (ax := mockAxios) (Some []) [] [] in
  exists e w',
    sendMessage sampleRequest w = (Throw e, w') /\
    net w' = [] /\
    message e = u "AgentURL environment variable is not set.".
Proof.
  intros w. eexists; eexists. split.
  - apply (@sendMessage_needs_base_url mockAxios sampleRequest w).
    right. reflexivity.
  - split; reflexivity.
Defined.

Lemma sendMessage_one_request_witness :
  let w := mkAgentWorld (ax := mockAxios) (Some (u "http://agent")) [] [] in
  net (snd (sendMessage sampleRequest w))
    = [(u "http://agent/message", mkConfig sampleRequest)] /\
  fst (sendMessage sampleRequest w)
    = Normal (JObj [prop "ok" (JBool true)]).
Proof.
  intros w.
  destruct (@sendMessage_one_request mockAxios sampleRequest w
              (u "http://agent") eq_refl) as [Hn [_ [Hr _]]].
  - discriminate.
  - split; [exact Hn|exact Hr].
Defined.

End AgentProps.

(* ===================================================================== *)
(** * Properties of the notification routes *)
(* ===================================================================== *)

Module ServerProps.
Import Js Server.

Lemma forEach_calls
  (appId : option JsString) (msg : JsValue) (refs : list JsValue)
  (st : ServerState) :
  forEach refs (fun r => continueConversationAsync appId r msg) st
    = (Normal tt,
       mkServer (calls st ++ map (fun r => mkCall appId r msg) refs)
         (res st)).
Proof.
  revert st. induction refs as [|r refs IH]; intros st; cbn [forEach map].
  - unfold ret. rewrite app_nil_r. now destruct st.
  - unfold bind at 1. unfold continueConversationAsync at 1.
    rewrite IH. cbn [calls res]. now rewrite <- app_assoc.
Qed.

Lemma forEach_messages
  (appId : option JsString) (msgs refs : list JsValue) (st : ServerState) :
  forEach msgs
    (fun m => forEach refs (fun r => continueConversationAsync appId r m)) st
    = (Normal tt,
       mkServer
         (calls st ++
          flat_map (fun m => map (fun r => mkCall appId r m) refs) msgs)
         (res st)).
Proof.
  revert st. induction msgs as [|m msgs IH]; intros st;
    cbn [forEach flat_map].
  - unfold ret. rewrite app_nil_r. now destruct st.
  - unfold bind at 1. rewrite forEach_calls, IH.
    cbn [calls res]. now rewrite <- app_assoc.
Qed.

Lemma length_fan_out
  (appId : option JsString) (msgs refs : list JsValue) :
  List.length (flat_map (fun m => map (fun r => mkCall appId r m) refs) msgs)
    = List.length msgs * List.length refs.
Proof.
  induction msgs as [|m msgs IH]; cbn [flat_map List.length];
    [reflexivity|].
  rewrite length_app, length_map, IH. lia.
Qed.

Section WithRegistry.
Variable MicrosoftAppId : option JsString.
Variable conversationReferences : list (JsString * JsValue).

(** X16.  [POST /api/notify] with an array body sends every message of
    the body to every registered conversation, once: as many proactive
    calls as messages times registry entries.  The response is always
    the same 200 "Proactive messages have been sent.", also when nothing
    was sent. *)
Theorem postNotify_fans_out (msgs : list JsValue) (st : ServerState) :
  exists st',
    postNotify MicrosoftAppId conversationReferences (JArr msgs) st
      = (Normal tt, st') /\
    List.length (calls st')
      = List.length (calls st)
        + List.length msgs * List.length conversationReferences /\
    (forall m k r,
       In m msgs -> In (k, r) conversationReferences ->
       In (mkCall MicrosoftAppId r m) (calls st')) /\
    (forall c, In c (calls st') ->
       In c (calls st) \/
       botAppId c = MicrosoftAppId /\ In (toSend c) msgs /\
       In (reference c) (Object_values conversationReferences)) /\
    res st'
      = mkResponse
          (headers (res st) ++ [(u "Content-Type", u "text/html")])
          (Some 200%Z)
          (written (res st) ++ [u "Proactive messages have been sent."])
          true.
Proof.
  unfold postNotify, respondHtml.
  unfold bind at 1. unfold liftC at 1. cbn [iterate].
  unfold bind at 1. rewrite forEach_messages.
  eexists. split; [reflexivity|].
  cbn [calls res headers statusCode written ended].
  split; [|split; [|split; [|reflexivity]]].
  - rewrite length_app, length_fan_out.
    unfold Object_values. now rewrite length_map.
  - intros m k r Hm Hr. apply in_or_app. right.
    apply in_flat_map. exists m. split; [exact Hm|].
    apply (in_map (fun r0 => mkCall MicrosoftAppId r0 m)).
    unfold Object_values. apply (in_map snd) in Hr. exact Hr.
  - intros c Hc. apply in_app_or in Hc as [Hc|Hc]; [now left|right].
    apply in_flat_map in Hc as [m [Hm Hc]].
    apply in_map_iff in Hc as [r [<- Hr]].
    cbn [botAppId toSend reference]. repeat split; assumption.
Qed.

(** X17.  [POST /api/notify] with a body that cannot be iterated (an
    object, a number, a boolean, [null], or none) throws a TypeError
    before anything is sent or written; a string body is iterated code
    point by code point, each one a message of its own. *)
Theorem postNotify_body_edge (body : JsValue) (st : ServerState) :
  match body with
  | JArr _ => True
  | JStr s =>
      postNotify MicrosoftAppId conversationReferences body st
        = postNotify MicrosoftAppId conversationReferences
            (JArr (map JStr (codePoints s))) st
  | _ =>
      exists e,
        postNotify MicrosoftAppId conversationReferences body st
          = (Throw e, st) /\ name e = u "TypeError"
  end.
Proof.
  destruct body as [| |b|n|s|items|props];
    try exact I; try reflexivity;
    eexists; split; reflexivity.
Qed.

(** X18.  [GET /api/notify] sends 'proactive hello' to every registered
    conversation, once: one proactive call per registry entry, and no
    other; then it answers 200 with the fixed page. *)
Theorem getNotify_notifies_each (st : ServerState) :
  exists st',
    getNotify MicrosoftAppId conversationReferences st = (Normal tt, st') /\
    calls st'
      = calls st ++
        map (fun r => mkCall MicrosoftAppId r (str "proactive hello"))
          (Object_values conversationReferences) /\
    List.length (calls st')
      = List.length (calls st) + List.length conversationReferences /\
    statusCode (res st') = Some 200%Z /\ ended (res st') = true.
Proof.
  unfold getNotify, respondHtml.
  unfold bind at 1. rewrite forEach_calls.
  eexists. split; [reflexivity|].
  cbn [calls res headers statusCode written ended].
  split; [reflexivity|]. split; [|split; reflexivity].
  rewrite length_app, length_map. unfold Object_values.
  now rewrite length_map.
Qed.

End WithRegistry.

End ServerProps.
